(** * Job analyzer: occupation resolution, statistics cache and risk scoring

    A shallow embedding of the decision logic of [bls_job_mapper.py],
    [bls_connector.py] and [job_api_integration_database_only.py], followed
    by the properties established about it.

    Conventions of the embedding.
    - A Python [str] is a [string]; every [ascii] stands for one code point
      below 256, and [lower], [strip] follow CPython on those code points.
    - A Python [dict] whose iteration order is observed is an association
      list in insertion order; the response cache, which is only looked up
      and inserted into, is a [gmap].
    - Module-level mutable state, the environment, the clock, the database
      and the upstream HTTP service are fields of one [World] record that is
      threaded through the functions that touch them.
    - A Python exception that is not caught inside the function is a
      [Raise] result. *)

From Stdlib Require Import ZArith QArith Qabs Qround Qpower String Ascii List Bool.
From Stdlib Require Import Lia Lqa.
From Stdlib Require PrimFloat FloatOps SpecFloat.
From stdpp Require Import base option list strings gmap pretty sorting.

Local Set Warnings "-register-all".
Local Open Scope string_scope.
Local Open Scope list_scope.

(** ** Python string primitives *)

Module Py.

Definition chars (s : string) : list ascii := list_ascii_of_string s.
Definition str (l : list ascii) : string := string_of_list_ascii l.

(** [c.lower()] on code points below 256: A-Z and the Latin-1 capitals
    (0xC0-0xDE except the multiplication sign 0xD7) move up by 32. *)
Definition lower_char (c : ascii) : ascii :=
  let n := N_of_ascii c in
  if ((65 <=? n) && (n <=? 90) ||
      (192 <=? n) && (n <=? 222) && negb (n =? 215))%N
  then ascii_of_N (n + 32) else c.

(** [c.isspace()] on code points below 256. *)
Definition isspace (c : ascii) : bool :=
  let n := N_of_ascii c in
  ((9 <=? n) && (n <=? 13) || (28 <=? n) && (n <=? 32) ||
   (n =? 133) || (n =? 160))%N.

Fixpoint lstrip_chars (l : list ascii) : list ascii :=
  match l with
  | [] => []
  | c :: l' => if isspace c then lstrip_chars l' else l
  end.

Definition rstrip_chars (l : list ascii) : list ascii :=
  rev (lstrip_chars (rev l)).

Definition strip_chars (l : list ascii) : list ascii :=
  rstrip_chars (lstrip_chars l).

Fixpoint startswith_chars (s p : list ascii) {struct p} : bool :=
  match p, s with
  | [], _ => true
  | _ :: _, [] => false
  | a :: p', b :: s' => Ascii.eqb a b && startswith_chars s' p'
  end.

Definition endswith_chars (s suf : list ascii) : bool :=
  startswith_chars (rev s) (rev suf).

(** [sub in s] *)
Fixpoint contains_chars (sub s : list ascii) : bool :=
  startswith_chars s sub ||
  match s with
  | [] => false
  | _ :: s' => contains_chars sub s'
  end.

(** [s[:-k]] for [k >= 0]; note that [s[:-0]] is [s[:0]], the empty
    string, and that a [k] beyond the length also gives the empty string. *)
Definition slice_to_minus (s : list ascii) (k : nat) : list ascii :=
  match k with
  | O => []
  | S _ => take (length s - k) s
  end.

Definition lower (s : string) : string := str (map lower_char (chars s)).
Definition strip (s : string) : string := str (strip_chars (chars s)).
Definition startswith (s p : string) : bool :=
  startswith_chars (chars s) (chars p).
Definition endswith (s suf : string) : bool :=
  endswith_chars (chars s) (chars suf).
Definition contains (sub s : string) : bool :=
  contains_chars (chars sub) (chars s).
Definition drop_last (s : string) (k : nat) : string :=
  str (slice_to_minus (chars s) k).

(** Strings that [lower] leaves alone. *)
Definition lowered (l : list ascii) : Prop :=
  Forall (fun c => lower_char c = c) l.

(** Insertion-ordered dictionaries. *)
Definition dict (V : Type) : Type := list (string * V).

Fixpoint dict_get {V} (d : dict V) (k : string) : option V :=
  match d with
  | [] => None
  | (k', v) :: d' => if String.eqb k' k then Some v else dict_get d' k
  end.

(** [d[k] = v]: an existing key keeps its position, a new key goes last. *)
Fixpoint dict_set {V} (d : dict V) (k : string) (v : V) : dict V :=
  match d with
  | [] => [(k, v)]
  | (k', v') :: d' =>
      if String.eqb k' k then (k', v) :: d' else (k', v') :: dict_set d' k v
  end.

(** [sorted(l)] on strings: ascending by code points, stable. *)
Fixpoint insert_sorted (x : string) (l : list string) : list string :=
  match l with
  | [] => [x]
  | y :: l' => if String.leb x y then x :: l else y :: insert_sorted x l'
  end.

Definition sorted (l : list string) : list string :=
  foldr insert_sorted [] l.

(** [sep.join(l)] *)
Definition join (sep : string) (l : list string) : string :=
  String.concat sep l.

(** Exceptions that escape the functions modelled here. *)
Inductive exn : Type :=
| IndexError
| AttributeError
| TypeError
| OverflowError.

Inductive result (A : Type) : Type :=
| Ok (a : A)
| Raise (e : exn).
Arguments Ok {A} a.
Arguments Raise {A} e.

(** Values decoded from JSON. *)
Inductive json : Type :=
| JNull
| JBool (b : bool)
| JNum (n : Z)
| JStr (s : string)
| JList (items : list json)
| JDict (fields : dict json).

End Py.

Import Py.

(** bind for [result] *)
Definition result_bind {A B} (r : result A) (f : A -> result B) : result B :=
  match r with
  | Ok a => f a
  | Raise e => Raise e
  end.

Notation "x <- r ;; k" := (result_bind r (fun x => k))
  (at level 100, r at next level, right associativity).

(** ** The shared state of the process and its collaborators *)

(** One row of table [bls_job_data]; also the dictionary assembled by
    [fetch_bls_data], which has no [id].  [last_updated] is the calendar
    date of the ["%Y-%m-%d"] text, as a day number: the text is written by
    [strftime] and read back by [strptime], and its zero-padded form sorts
    as the dates do.  [None] in an optional field is SQL NULL, Python
    [None].  The category column is nullable in the schema; every writer of
    this module stores a string. *)
Record BlsData : Type := mkBlsData {
  id : option Z;
  occupation_code : string;
  job_title : string;
  standardized_title : string;
  job_category : string;
  current_employment : option Z;
  projected_employment : option Z;
  percent_change : option Q;
  annual_job_openings : option Z;
  median_wage : option json;
  last_updated : Z
}.

(** The database behind [engine]: [reachable = false] makes
    [engine.connect()] raise. *)
Record Database : Type := mkDatabase {
  reachable : bool;
  rows : list BlsData
}.

(** Payload of the POST to the time-series endpoint. *)
Record Request : Type := mkRequest {
  seriesid : list string;
  startyear : string;
  endyear : string;
  registrationkey : string
}.

(** Outcome of [requests.post] + [raise_for_status] + [json()]. *)
Inductive Reply : Type :=
| Response (data : json)
| RequestException (e : string).

Record World : Type := mkWorld {
  BLS_API_KEY : option string;          (* os.environ.get('BLS_API_KEY') *)
  _api_cache : gmap string json;        (* bls_connector._api_cache *)
  JOB_TITLE_TO_SOC : dict string;       (* bls_job_mapper.JOB_TITLE_TO_SOC *)
  engine : option Database;             (* bls_job_mapper.engine *)
  now : Z;                              (* datetime.now(), in microseconds *)
  upstream : nat -> Request -> Reply;   (* what the k-th POST is answered *)
  posted : list Request                 (* the POSTs made so far *)
}.

Definition set_api_cache (w : World) (c : gmap string json) : World :=
  mkWorld (BLS_API_KEY w) c (JOB_TITLE_TO_SOC w) (engine w) (now w)
          (upstream w) (posted w).

Definition set_JOB_TITLE_TO_SOC (w : World) (d : dict string) : World :=
  mkWorld (BLS_API_KEY w) (_api_cache w) d (engine w) (now w)
          (upstream w) (posted w).

Definition set_engine (w : World) (e : option Database) : World :=
  mkWorld (BLS_API_KEY w) (_api_cache w) (JOB_TITLE_TO_SOC w) e (now w)
          (upstream w) (posted w).

Definition set_posted (w : World) (l : list Request) : World :=
  mkWorld (BLS_API_KEY w) (_api_cache w) (JOB_TITLE_TO_SOC w) (engine w)
          (now w) (upstream w) l.

(** ** bls_job_mapper: classification table and title normalizer *)

Definition JOB_TITLE_TO_SOC_initial : dict string := [
  ("software developer", "15-1252");
  ("software engineer", "15-1252");
  ("programmer", "15-1251");
  ("web developer", "15-1254");
  ("registered nurse", "29-1141");
  ("nurse", "29-1141");
  ("teacher", "25-2021");
  ("elementary school teacher", "25-2021");
  ("high school teacher", "25-2031");
  ("lawyer", "23-1011");
  ("attorney", "23-1011");
  ("doctor", "29-1221");
  ("physician", "29-1221");
  ("accountant", "13-2011");
  ("project manager", "11-3021");
  ("product manager", "11-2021");
  ("marketing manager", "11-2021");
  ("retail salesperson", "41-2031");
  ("cashier", "41-2011");
  ("customer service representative", "43-4051");
  ("truck driver", "53-3032");
  ("receptionist", "43-4171");
  ("data scientist", "15-2051");
  ("data analyst", "15-2041");
  ("business analyst", "13-1111");
  ("financial analyst", "13-2051");
  ("human resources specialist", "13-1071");
  ("graphic designer", "27-1024");
  ("police officer", "33-3051");
  ("chef", "35-1011");
  ("cook", "35-2014");
  ("waiter", "35-3031");
  ("waitress", "35-3031");
  ("janitor", "37-2011");
  ("administrative assistant", "43-6011");
  ("executive assistant", "43-6011");
  ("dental hygienist", "29-1292");
  ("electrician", "47-2111");
  ("plumber", "47-2152");
  ("carpenter", "47-2031");
  ("construction worker", "47-2061");
  ("mechanic", "49-3023");
  ("automotive mechanic", "49-3023");
  ("taxi driver", "53-3054");
  ("uber driver", "53-3054");
  ("journalist", "27-3023");
  ("reporter", "27-3023");
  ("writer", "27-3042");
  ("editor", "27-3041");
  ("photographer", "27-4021");
  ("court reporter", "23-2011");
  ("stenographer", "23-2011");
  ("digital court reporter", "23-2011");
  ("travel agent", "41-4012")
].

Definition SOC_TO_CATEGORY : dict string := [
  ("15-", "Computer and Mathematical");
  ("11-", "Management");
  ("13-", "Business and Financial");
  ("17-", "Architecture and Engineering");
  ("19-", "Life, Physical, and Social Science");
  ("21-", "Community and Social Service");
  ("23-", "Legal");
  ("25-", "Educational Instruction");
  ("27-", "Arts, Design, Entertainment, Sports, and Media");
  ("29-", "Healthcare Practitioners");
  ("31-", "Healthcare Support");
  ("33-", "Protective Service");
  ("35-", "Food Preparation and Serving");
  ("37-", "Building and Grounds Cleaning and Maintenance");
  ("39-", "Personal Care and Service");
  ("41-", "Sales and Related");
  ("43-", "Office and Administrative Support");
  ("45-", "Farming, Fishing, and Forestry");
  ("47-", "Construction and Extraction");
  ("49-", "Installation, Maintenance, and Repair");
  ("51-", "Production");
  ("53-", "Transportation and Material Moving")
].

(** [for prefix, category in SOC_TO_CATEGORY.items(): ...] *)
Fixpoint get_job_category_loop (items : dict string) (occupation_code : string)
  : string :=
  match items with
  | [] => "General"
  | (prefix, category) :: items' =>
      if startswith occupation_code prefix then category
      else get_job_category_loop items' occupation_code
  end.

Definition get_job_category (occupation_code : string) : string :=
  get_job_category_loop SOC_TO_CATEGORY occupation_code.

Definition suffixes : list string :=
  [" i"; " ii"; " iii"; " iv"; " v"; " specialist"; " assistant";
   " associate"; " senior"; " junior"; " lead"].

(** The [for suffix in suffixes] loop with its [break]. *)
Fixpoint strip_suffix_loop (todo : list string) (standardized : string)
  : string :=
  match todo with
  | [] => standardized
  | suffix :: todo' =>
      if endswith standardized suffix
      then drop_last standardized (String.length suffix)
      else strip_suffix_loop todo' standardized
  end.

Definition standardize_job_title (title : string) : string :=
  let standardized := strip (lower title) in
  strip_suffix_loop suffixes standardized.

(** bls_connector.search_occupations *)
Definition soc_codes : list (string * string) := [
  ("11-1011", "Chief Executives");
  ("11-2011", "Advertising and Promotions Managers");
  ("11-3031", "Financial Managers");
  ("15-1252", "Software Developers");
  ("15-1211", "Computer Systems Analysts");
  ("15-1231", "Computer Network Support Specialists");
  ("25-1011", "Business Teachers, Postsecondary");
  ("25-2021", "Elementary School Teachers");
  ("29-1051", "Pharmacists");
  ("29-1141", "Registered Nurses");
  ("41-3091", "Sales Representatives of Services");
  ("43-4051", "Customer Service Representatives");
  ("43-9021", "Data Entry Keyers");
  ("53-3032", "Heavy and Tractor-Trailer Truck Drivers")
].

Definition search_occupations (query : string) : list (string * string) :=
  let query := lower query in
  List.filter (fun item => contains query (lower (snd item))) soc_codes.

(** [for key, code in JOB_TITLE_TO_SOC.items(): if key in std_title or
    std_title in key: ...]; the first hit in table order. *)
Fixpoint partial_match (items : dict string) (std_title : string)
  : option string :=
  match items with
  | [] => None
  | (key, code) :: items' =>
      if contains key std_title || contains std_title key then Some code
      else partial_match items' std_title
  end.

(** Returns [(soc_code, title, category)]. *)
Definition find_occupation_code (job_title : string) (w : World)
  : (string * string * string) * World :=
  let std_title := standardize_job_title job_title in
  match dict_get (JOB_TITLE_TO_SOC w) std_title with
  | Some soc_code => ((soc_code, job_title, get_job_category soc_code), w)
  | None =>
      match partial_match (JOB_TITLE_TO_SOC w) std_title with
      | Some code => ((code, job_title, get_job_category code), w)
      | None =>
          match search_occupations job_title with
          | best_match :: _ =>
              let soc_code := fst best_match in
              let std_title := snd best_match in
              let category := get_job_category soc_code in
              let w' := set_JOB_TITLE_TO_SOC w
                          (dict_set (JOB_TITLE_TO_SOC w)
                                    (standardize_job_title std_title) soc_code) in
              ((soc_code, std_title, category), w')
          | [] => (("00-0000", job_title, "General"), w)
          end
      end
  end.

(** ** bls_job_mapper: risk scorer *)

Local Open Scope Q_scope.

Record RiskAssessment : Type := mkRiskAssessment {
  year_1_risk : Q;
  year_5_risk : Q;
  risk_category : string;
  risk_factors : list string;
  protective_factors : list string;
  analysis : string
}.

Definition generic_risk_factors : list string := [
  "Routine data processing tasks can be automated";
  "Predictable decision-making components can be handled by AI";
  "Standardized documentation and reporting can be automated";
  "Basic customer interactions can be managed by AI systems"
]%string.

Definition category_risk_factors : dict (list string) := [
  ("Computer and Mathematical", [
     "Code generation AI can produce routine programming solutions";
     "Automated testing and debugging reduces manual work";
     "Basic website and application development increasingly automated";
     "Technical documentation can be generated by AI"]);
  ("Management", [
     "AI tools can handle resource allocation and scheduling";
     "Performance monitoring and reporting can be automated";
     "Basic project tracking requires less human oversight";
     "Standard communication can be drafted by AI"]);
  ("Business and Financial", [
     "Financial analysis and modeling increasingly automated";
     "Transaction processing and auditing can be handled by AI";
     "Market research data collection and basic analysis automated";
     "Standard financial reporting can be generated by AI"]);
  ("Legal", [
     "Document review and contract analysis increasingly automated";
     "Legal research can be accelerated with AI assistance";
     "Standard legal document generation handled by AI";
     "Case outcome prediction becoming more automated"]);
  ("Educational Instruction", [
     "Basic content delivery can be automated through online platforms";
     "Standardized assessment and grading increasingly automated";
     "Administrative tasks can be handled by AI systems";
     "Some tutoring functions can be performed by AI"]);
  ("Healthcare Practitioners", [
     "Administrative tasks and documentation increasingly automated";
     "Basic diagnostic assistance provided by AI";
     "Patient scheduling and management can be automated";
     "Some monitoring functions can be performed by AI systems"])
]%string.

Definition generate_risk_factors (job_title job_category : string)
  : list string :=
  let specific_factors :=
    default [] (dict_get category_risk_factors job_category) in
  let risk_factors := (specific_factors ++ generic_risk_factors)%list in
  take (Nat.min 5 (length risk_factors)) risk_factors.

Definition generic_protective_factors : list string := [
  "Complex decision-making in ambiguous situations";
  "Creative problem-solving in unpredictable environments";
  "Building relationships and emotional intelligence";
  "Adaptability to changing circumstances and requirements"
]%string.

Definition category_protective_factors : dict (list string) := [
  ("Computer and Mathematical", [
     "Advanced systems architecture and design";
     "Novel algorithm development and implementation";
     "Complex integration of disparate technologies";
     "Innovative problem-solving in unique technical contexts"]);
  ("Management", [
     "Strategic leadership and organizational vision";
     "Complex stakeholder relationship management";
     "Change management in ambiguous environments";
     "Cultivating team culture and interpersonal dynamics"]);
  ("Business and Financial", [
     "Complex strategic financial planning";
     "Contextual business judgment requiring broad knowledge";
     "Negotiation and persuasion in high-stakes situations";
     "Novel market opportunity identification"]);
  ("Legal", [
     "Complex legal strategy development";
     "Persuasive courtroom advocacy";
     "Nuanced client counseling in ambiguous situations";
     "Novel legal theory development"]);
  ("Educational Instruction", [
     "Personalized teaching adapted to individual student needs";
     "Creating engaging learning environments";
     "Mentoring and developing student potential";
     "Addressing complex behavioral and learning challenges"]);
  ("Healthcare Practitioners", [
     "Complex clinical judgment in uncertain situations";
     "Empathetic patient care requiring emotional intelligence";
     "Physical assessment and intervention skills";
     "Integrated treatment planning for complex cases"])
]%string.

Definition generate_protective_factors (job_title job_category : string)
  : list string :=
  let specific_factors :=
    default [] (dict_get category_protective_factors job_category) in
  let protective_factors :=
    (specific_factors ++ generic_protective_factors)%list in
  take (Nat.min 5 (length protective_factors)) protective_factors.

(** The scores are the decimal literals of the source, held exactly. *)
Definition category_risk_scores : dict (Q * Q) := [
  ("Computer and Mathematical", (30, 50));
  ("Management", (25, 45));
  ("Business and Financial", (35, 55));
  ("Architecture and Engineering", (20, 40));
  ("Life, Physical, and Social Science", (15, 35));
  ("Community and Social Service", (15, 30));
  ("Legal", (25, 45));
  ("Educational Instruction", (20, 35));
  ("Arts, Design, Entertainment, Sports, and Media", (30, 50));
  ("Healthcare Practitioners", (15, 30));
  ("Healthcare Support", (20, 40));
  ("Protective Service", (15, 30));
  ("Food Preparation and Serving", (35, 60));
  ("Building and Grounds Cleaning and Maintenance", (30, 55));
  ("Personal Care and Service", (25, 45));
  ("Sales and Related", (40, 65));
  ("Office and Administrative Support", (45, 70));
  ("Farming, Fishing, and Forestry", (30, 50));
  ("Construction and Extraction", (20, 40));
  ("Installation, Maintenance, and Repair", (25, 45));
  ("Production", (40, 65));
  ("Transportation and Material Moving", (35, 60))
]%string.

Definition default_risk : Q * Q := (35, 55).

(** The [if year_5_risk < 30: ... elif ... else ...] chain of
    [calculate_ai_risk]. *)
Definition risk_category_of (year_5_risk : Q) : string :=
  if Qlt_le_dec year_5_risk 30 then "Low"
  else if Qlt_le_dec year_5_risk 50 then "Moderate"
  else if Qlt_le_dec year_5_risk 70 then "High"
  else "Very High".

Definition calculate_ai_risk (job_title job_category : string)
  : RiskAssessment :=
  let '(year_1_risk, year_5_risk) :=
    default default_risk (dict_get category_risk_scores job_category) in
  let risk_category := risk_category_of year_5_risk in
  let risk_factors := generate_risk_factors job_title job_category in
  let protective_factors := generate_protective_factors job_title job_category in
  let analysis :=
    ("The role of " ++ job_title ++ " faces a " ++ lower risk_category
       ++ " risk of AI displacement. ")%string in
  let analysis :=
    if String.eqb risk_category "Low" || String.eqb risk_category "Moderate"
    then (analysis ++ "While certain routine aspects of the role may be automated, the core functions requiring human judgment, creativity, and interpersonal skills remain difficult to replace with AI. ")%string
    else (analysis ++ "Many aspects of this role involve predictable, routine tasks that are increasingly being automated by AI systems. ")%string in
  let analysis :=
    (analysis ++ "Professionals in this field can increase their resilience by developing skills in areas that complement AI rather than compete with it.")%string in
  mkRiskAssessment year_1_risk year_5_risk risk_category risk_factors
                   protective_factors analysis.

Local Close Scope Q_scope.

(** ** Clock *)

(** [now] counts microseconds of local time from 1970-01-01T00:00:00; a
    date is the number of whole days from 1970-01-01. *)
Definition microseconds_per_day : Z := 86400 * 1000000.

(** [datetime.now().date()] *)
Definition today (w : World) : Z := (now w / microseconds_per_day)%Z.

(** Year of a day number in the proleptic Gregorian calendar. *)
Definition year_of_day (day : Z) : Z :=
  let z := (day + 719468)%Z in
  let era := (z / 146097)%Z in
  let doe := (z - era * 146097)%Z in
  let yoe := ((doe - doe / 1460 + doe / 36524 - doe / 146096) / 365)%Z in
  let doy := (doe - (365 * yoe + yoe / 4 - yoe / 100))%Z in
  let mp := ((5 * doy + 2) / 153)%Z in
  let month := (if (mp <? 10)%Z then mp + 3 else mp - 9)%Z in
  (yoe + era * 400 + (if (month <=? 2)%Z then 1 else 0))%Z.

(** [time.strftime("%Y")], as a number. *)
Definition current_year (w : World) : Z := year_of_day (today w).

(** ** bls_connector *)

(** [for x in v]: the elements a decoded JSON value yields when iterated. *)
Definition iterate (v : json) : result (list json) :=
  match v with
  | JList items => Ok items
  | JDict fields => Ok (map (fun kv => JStr (fst kv)) fields)
  | JStr s => Ok (map (fun c => JStr (String c EmptyString)) (chars s))
  | JNull | JBool _ | JNum _ => Raise TypeError
  end.

(** [v.get]: only dictionaries have it. *)
Definition as_dict (v : json) : result (dict json) :=
  match v with
  | JDict fields => Ok fields
  | _ => Raise AttributeError
  end.

(** [d.get(k)], with [None] as [JNull] *)
Definition get (d : dict json) (k : string) : json :=
  default JNull (dict_get d k).

(** [d.get(k, dflt)] *)
Definition get_or (d : dict json) (k : string) (dflt : json) : json :=
  default dflt (dict_get d k).

(** [v == "literal"] *)
Definition is_str (v : json) (literal : string) : bool :=
  match v with
  | JStr s => String.eqb s literal
  | _ => false
  end.

(** Python [None] versus a value. *)
Definition optional (v : json) : option json :=
  match v with
  | JNull => None
  | _ => Some v
  end.

Definition sample_data : list json :=
  map (fun yv : string * string =>
         JDict [("year", JStr (fst yv)); ("period", JStr "A01");
                ("periodName", JStr "Annual"); ("value", JStr (snd yv));
                ("footnotes", JList [])])
      [("2020", "120000"); ("2021", "125000"); ("2022", "130000");
       ("2023", "135000"); ("2024", "140000")].

Definition sample_response (series_id : string) : json :=
  JDict [("status", JStr "success");
         ("responseTime", JNum 100);
         ("message", JList []);
         ("Results", JDict [("series", JList [
            JDict [("seriesID", JStr series_id);
                   ("data", JList sample_data)]])])].

(** [f"{','.join(sorted(series_ids))}_{start_year}_{end_year}"] *)
Definition cache_key (series_ids : list string) (start_year end_year : string)
  : string :=
  join "," (sorted series_ids) ++ "_" ++ start_year ++ "_" ++ end_year.

(** [if not api_key]: unset or empty. *)
Definition api_key_of (w : World) : option string :=
  match BLS_API_KEY w with
  | Some api_key => if String.eqb api_key "" then None else Some api_key
  | None => None
  end.

Definition get_bls_data (series_ids : list string) (start_year end_year : string)
  (w : World) : result json * World :=
  match api_key_of w with
  | None =>
      (* sample data; reads series_ids[0] *)
      match series_ids with
      | [] => (Raise IndexError, w)
      | series_id :: _ => (Ok (sample_response series_id), w)
      end
  | Some api_key =>
      let cache_key := cache_key series_ids start_year end_year in
      match _api_cache w !! cache_key with
      | Some cached => (Ok cached, w)
      | None =>
          let payload := mkRequest series_ids start_year end_year api_key in
          let reply := upstream w (length (posted w)) payload in
          let w := set_posted w (posted w ++ [payload]) in
          match reply with
          | Response data =>
              (Ok data, set_api_cache w (<[cache_key := data]> (_api_cache w)))
          | RequestException e =>
              (Ok (JDict [("status", JStr "error"); ("message", JStr e)]), w)
          end
      end
  end.

(** The text of an error message: literal, or an f-string that formats a
    decoded JSON value after a literal prefix. *)
Inductive Message : Type :=
| Text (s : string)
| Formatted (prefix : string) (value : json).

(** One entry of [results] in [parse_occupation_response]. *)
Record SeriesRecord : Type := mkSeriesRecord {
  series_id : json;
  year : json;
  period : json;
  value : json;
  footnotes : json
}.

(** The dictionary returned by [get_occupation_data]: ["status":
    "success"] with its fields, or ["status": "error"] with a message. *)
Inductive OccupationData : Type :=
| OccupationSuccess (occ_code : string) (data : list SeriesRecord)
                    (latest_value : json)
| OccupationError (message : Message).

(** [occupation_data.get("latest_value")] *)
Definition get_latest_value (d : OccupationData) : option json :=
  match d with
  | OccupationSuccess _ _ latest_value => optional latest_value
  | OccupationError _ => None
  end.

(** The inner loop: [for item in series.get("data", [])]. *)
Fixpoint series_items (series_id : json) (items : list json)
  : result (list SeriesRecord) :=
  match items with
  | [] => Ok []
  | item :: items' =>
      item <- as_dict item ;;
      rest <- series_items series_id items' ;;
      Ok (mkSeriesRecord series_id (get item "year") (get item "period")
                         (get item "value") (get item "footnotes") :: rest)
  end.

(** The outer loop: [for series in ...get("series", [])]. *)
Fixpoint series_results (all_series : list json) : result (list SeriesRecord) :=
  match all_series with
  | [] => Ok []
  | series :: all_series' =>
      series <- as_dict series ;;
      items <- iterate (get_or series "data" (JList [])) ;;
      here <- series_items (get series "seriesID") items ;;
      rest <- series_results all_series' ;;
      Ok (here ++ rest)
  end.

(** The DataFrame is a detour: [df.to_dict(orient="records")] gives the
    records back and [df.iloc[0]["value"]] is the value of the first one
    (the type conversions of pandas are not modelled). *)
Definition parse_occupation_response (response_data : json) (occ_code : string)
  : result OccupationData :=
  response_data <- as_dict response_data ;;
  if negb (is_str (get response_data "status") "REQUEST_SUCCEEDED") then
    Ok (OccupationError
          (Formatted "BLS API request failed: "
                     (get_or response_data "message" (JStr "Unknown error"))))
  else
    results_obj <- as_dict (get_or response_data "Results" (JDict [])) ;;
    all_series <- iterate (get_or results_obj "series" (JList [])) ;;
    results <- series_results all_series ;;
    match results with
    | first :: _ =>
        Ok (OccupationSuccess occ_code results (value first))
    | [] =>
        Ok (OccupationError (Text "No data found for the requested occupation"))
    end.

Definition series_mapping : dict string := [
  ("15-1252", "OEU1025560000000015125201");
  ("11-9111", "OEU1025560000000011911101")
].

Definition get_occupation_data (occ_code : string) (w : World)
  : result OccupationData * World :=
  match dict_get series_mapping occ_code with
  | Some series_id =>
      let current_year := current_year w in
      let '(data, w) :=
        get_bls_data [series_id] (pretty (current_year - 5)%Z)
                     (pretty current_year) w in
      (data <- data ;; parse_occupation_response data occ_code, w)
  | None =>
      (Ok (OccupationError
             (Text ("No BLS series ID mapping found for occupation code "
                      ++ occ_code))), w)
  end.

Record Projections : Type := mkProjections {
  proj_current_employment : Z;
  proj_projected_employment : Z;
  proj_percent_change : Q;
  proj_annual_job_openings : Z
}.

Inductive ProjectionData : Type :=
| ProjectionSuccess (occ_code : string) (projections : Projections)
| ProjectionError (message : string).

Definition projections_table : dict Projections := [
  ("15-1252", mkProjections 1365500 1572900 (152 # 10) 162900);
  ("29-1141", mkProjections 3130600 3458200 (105 # 10) 203200);
  ("43-9021", mkProjections 149900 112400 (-25) 14200)
].

Definition get_employment_projection (occ_code : string) : ProjectionData :=
  match dict_get projections_table occ_code with
  | Some p => ProjectionSuccess occ_code p
  | None =>
      ProjectionError
        ("No employment projections found for occupation code " ++ occ_code)
  end.

(** ** bls_job_mapper: statistics store adapter *)

(** [SELECT * FROM bls_job_data WHERE occupation_code = :code]: the
    matching rows, in storage order. *)
Definition rows_for (occupation_code0 : string) (db : Database) : list BlsData :=
  List.filter (fun r => String.eqb (occupation_code r) occupation_code0) (rows db).

(** [ORDER BY last_updated DESC LIMIT 1].  SQL leaves the choice among
    rows of equal date open; the earliest stored one is taken here. *)
Fixpoint latest_row (candidates : list BlsData) : option BlsData :=
  match candidates with
  | [] => None
  | r :: rest =>
      match latest_row rest with
      | Some r' => if (last_updated r <? last_updated r')%Z then Some r' else Some r
      | None => Some r
      end
  end.

(** [(datetime.now() - last_updated).days], where [last_updated] is
    midnight of the stored date; [timedelta.days] rounds down. *)
Definition days_since_update (w : World) (data : BlsData) : Z :=
  ((now w - last_updated data * microseconds_per_day) / microseconds_per_day)%Z.

Definition get_bls_data_from_db (occupation_code0 : string) (w : World)
  : option BlsData * World :=
  match engine w with
  | None => (None, w)
  | Some db =>
      if negb (reachable db) then (None, w)   (* except Exception: return None *)
      else
        match latest_row (rows_for occupation_code0 db) with
        | Some data =>
            if (days_since_update w data <? 90)%Z then (Some data, w)
            else (None, w)
        | None => (None, w)
        end
  end.

(** [UPDATE bls_job_data SET ... WHERE occupation_code = :occupation_code] *)
Definition update_row (data r : BlsData) : BlsData :=
  if String.eqb (occupation_code r) (occupation_code data)
  then mkBlsData (id r) (occupation_code r) (job_title data)
                 (standardized_title data) (job_category data)
                 (current_employment data) (projected_employment data)
                 (percent_change data) (annual_job_openings data)
                 (median_wage data) (last_updated data)
  else r.

(** The next value of the serial primary key. *)
Definition next_id (rs : list BlsData) : Z :=
  (1 + foldr (fun r m => Z.max (default 0 (id r)) m) 0 rs)%Z.

(** [INSERT INTO bls_job_data (...) VALUES (...)] *)
Definition insert_row (data : BlsData) (rs : list BlsData) : list BlsData :=
  rs ++ [mkBlsData (Some (next_id rs)) (occupation_code data) (job_title data)
                   (standardized_title data) (job_category data)
                   (current_employment data) (projected_employment data)
                   (percent_change data) (annual_job_openings data)
                   (median_wage data) (last_updated data)].

(** The dictionary passed in always carries ["last_updated"] here, so the
    [if "last_updated" not in data] default does not apply. *)
Definition save_bls_data_to_db (data : BlsData) (w : World) : bool * World :=
  match engine w with
  | None => (false, w)
  | Some db =>
      if negb (reachable db) then (false, w)  (* except Exception: return False *)
      else
        let rs :=
          match rows_for (occupation_code data) db with
          | _ :: _ => map (update_row data) (rows db)
          | [] => insert_row data (rows db)
          end in
        (true, set_engine w (Some (mkDatabase (reachable db) rs)))
  end.

(** ** bls_job_mapper: pipeline *)

Definition fetch_bls_data (job_title0 : string) (w : World)
  : result BlsData * World :=
  let '((occupation_code0, standardized_title0, job_category0), w) :=
    find_occupation_code job_title0 w in
  let '(db_data, w) := get_bls_data_from_db occupation_code0 w in
  match db_data with
  | Some db_data => (Ok db_data, w)
  | None =>
      let '(occupation_data, w) := get_occupation_data occupation_code0 w in
      match occupation_data with
      | Raise e => (Raise e, w)
      | Ok occupation_data =>
          let projection_data := get_employment_projection occupation_code0 in
          let projections :=
            match projection_data with
            | ProjectionSuccess _ p => Some p
            | ProjectionError _ => None
            end in
          let bls_data :=
            mkBlsData None occupation_code0 job_title0 standardized_title0
                      job_category0
                      (proj_current_employment <$> projections)
                      (proj_projected_employment <$> projections)
                      (proj_percent_change <$> projections)
                      (proj_annual_job_openings <$> projections)
                      (get_latest_value occupation_data)
                      (today w) in
          let '(_, w) := save_bls_data_to_db bls_data w in
          (Ok bls_data, w)
      end
  end.

Record CompleteJobData : Type := mkCompleteJobData {
  result_job_title : string;
  result_occupation_code : string;
  result_job_category : string;
  result_employment : option Z;
  result_projected_employment : option Z;
  result_employment_change_percent : option Q;
  result_annual_job_openings : option Z;
  result_median_wage : option json;
  result_year_1_risk : Q;
  result_year_5_risk : Q;
  result_risk_category : string;
  result_risk_factors : list string;
  result_protective_factors : list string;
  result_analysis : string;
  result_last_updated : Z
}.

Definition get_complete_job_data (job_title0 : string) (w : World)
  : result CompleteJobData * World :=
  let '((soc_code, standardized_title0, job_category0), w) :=
    find_occupation_code job_title0 w in
  let '(bls_data, w) := fetch_bls_data job_title0 w in
  match bls_data with
  | Raise e => (Raise e, w)
  | Ok bls_data =>
      let job_category0 :=
        if negb (String.eqb job_category0 "General") then job_category0
        else job_category bls_data in
      let risk_data := calculate_ai_risk job_title0 job_category0 in
      (Ok (mkCompleteJobData
             (standardized_title bls_data) soc_code job_category0
             (current_employment bls_data) (projected_employment bls_data)
             (percent_change bls_data) (annual_job_openings bls_data)
             (median_wage bls_data)
             (year_1_risk risk_data) (year_5_risk risk_data)
             (risk_category risk_data) (risk_factors risk_data)
             (protective_factors risk_data) (analysis risk_data)
             (last_updated bls_data)), w)
  end.

(** What [fetch_bls_data] assembles when the store has nothing fresh and
    the code has no series mapping. *)
Definition assembled (job_title0 code title cat : string) (w : World) : BlsData :=
  mkBlsData None code job_title0 title cat
            (proj_current_employment <$> dict_get projections_table code)
            (proj_projected_employment <$> dict_get projections_table code)
            (proj_percent_change <$> dict_get projections_table code)
            (proj_annual_job_openings <$> dict_get projections_table code)
            None (today w).

(** ** Process lifetime *)

(** What can happen to the [World] while the process lives: calls into the
    modules above, and the clock moving on. *)
Inductive Operation : Type :=
| Call_get_bls_data (series_ids : list string) (start_year end_year : string)
| Call_get_occupation_data (occ_code : string)
| Call_find_occupation_code (job_title0 : string)
| Call_get_bls_data_from_db (occupation_code0 : string)
| Call_save_bls_data_to_db (data : BlsData)
| Call_fetch_bls_data (job_title0 : string)
| Call_get_complete_job_data (job_title0 : string)
| Clock_advances (microseconds : Z).

Definition run (w : World) (op : Operation) : World :=
  match op with
  | Call_get_bls_data series_ids start_year end_year =>
      snd (get_bls_data series_ids start_year end_year w)
  | Call_get_occupation_data occ_code => snd (get_occupation_data occ_code w)
  | Call_find_occupation_code job_title0 => snd (find_occupation_code job_title0 w)
  | Call_get_bls_data_from_db occupation_code0 =>
      snd (get_bls_data_from_db occupation_code0 w)
  | Call_save_bls_data_to_db data => snd (save_bls_data_to_db data w)
  | Call_fetch_bls_data job_title0 => snd (fetch_bls_data job_title0 w)
  | Call_get_complete_job_data job_title0 =>
      snd (get_complete_job_data job_title0 w)
  | Clock_advances microseconds =>
      mkWorld (BLS_API_KEY w) (_api_cache w) (JOB_TITLE_TO_SOC w) (engine w)
              (now w + microseconds) (upstream w) (posted w)
  end.

Definition run_all (w : World) (ops : list Operation) : World :=
  foldl run w ops.

(** [w'] has the credential of [w] and every cached response of [w]. *)
Definition cache_extends (w w' : World) : Prop :=
  BLS_API_KEY w' = BLS_API_KEY w /\
  forall k d, _api_cache w !! k = Some d -> _api_cache w' !! k = Some d.

(** A freshly started process with no credential, no database and no
    network: the table is the static one and the cache is empty. *)
Definition offline_world : World :=
  mkWorld None ∅ JOB_TITLE_TO_SOC_initial None 0
          (fun _ _ => RequestException "offline") [].

(** ** Double-precision arithmetic

    A finite Python [float] is the rational number it denotes.  Every
    operation computes the exact result and rounds it to the nearest number
    with 53 significant bits (the least exponent being that of the subnormal
    doubles), ties going to the even significand.  A result of magnitude
    [2^1024] or more does not fit a double: conversions and integer
    division raise [OverflowError] at once; a product or sum becomes an
    infinity, which in [generate_employment_trend] reaches [int()] within the
    same iteration and raises [OverflowError] there, so it is raised at the
    operation. *)

Module Float64.
Local Open Scope Q_scope.

Definition pow2 (e : Z) : Q := 2 ^ e.

(** The greatest [k] with [2^k <= |x|], for [x] other than zero. *)
Definition ilog2 (x : Q) : Z :=
  let k := (Z.log2 (Z.abs (Qnum x)) - Z.log2 (Zpos (Qden x)))%Z in
  if Qle_bool (pow2 k) (Qabs x) then k else (k - 1)%Z.

(** Exponent of the unit in the last place. *)
Definition ulp_exponent (x : Q) : Z := Z.max (ilog2 x - 52) (-1074).

Definition round_half_even (x : Q) : Z :=
  let f := Qfloor x in
  match Qcompare (x - inject_Z f) (1 # 2) with
  | Lt => f
  | Gt => (f + 1)%Z
  | Eq => if Z.even f then f else (f + 1)%Z
  end.

Definition round (x : Q) : Q :=
  if Qeq_bool x 0 then 0
  else
    let e := ulp_exponent x in
    Qred (inject_Z (round_half_even (x * pow2 (- e))) * pow2 e).

Definition fits (x : Q) : result Q :=
  if Qle_bool (pow2 1024) (Qabs x) then Raise OverflowError else Ok x.

(** [float(n)] *)
Definition of_int (n : Z) : result Q := fits (round (inject_Z n)).

(** [a / b] on integers *)
Definition true_divide (a b : Z) : result Q :=
  fits (round (inject_Z a / inject_Z b)).

(** [x * y] *)
Definition mul (x y : Q) : result Q := fits (round (x * y)).

(** [x + y] *)
Definition add (x y : Q) : result Q := fits (round (x + y)).

(** [int(x)]: towards zero *)
Definition to_int (x : Q) : Z :=
  if Qle_bool 0 x then Qfloor x else Qceiling x.

(** The rational denoted by a finite double of the kernel's own binary64
    arithmetic, for checking [round] against it on concrete values. *)
Definition of_binary64 (f : PrimFloat.float) : option Q :=
  match FloatOps.Prim2SF f with
  | SpecFloat.S754_zero _ => Some 0
  | SpecFloat.S754_finite s m e =>
      Some (Qred ((if s then -1 else 1) * inject_Z (Zpos m) * pow2 e))
  | _ => None
  end.

End Float64.

(** ** job_api_integration_database_only: employment trend *)

(** Truth value of an [Optional[int]]: [None] and [0] are false. *)
Definition truthy (v : option Z) : bool :=
  match v with
  | Some n => negb (n =? 0)%Z
  | None => false
  end.

(** [range(n)] *)
Definition range (n : Z) : list Z := Z.of_nat <$> seq 0 (Z.to_nat n).

(** The loop [for i in range(num_years)]: [value = current +
    (annual_change * i)], [trend.append(int(value))]. *)
Fixpoint trend_loop (current : Z) (annual_change : Q) (years : list Z)
  : result (list Z) :=
  match years with
  | [] => Ok []
  | i :: years' =>
      i' <- Float64.of_int i ;;
      change <- Float64.mul annual_change i' ;;
      current' <- Float64.of_int current ;;
      value <- Float64.add current' change ;;
      trend <- trend_loop current annual_change years' ;;
      Ok (Float64.to_int value :: trend)
  end.

Definition generate_employment_trend (current projected : option Z)
  (num_years : Z) : result (list Z) :=
  match current, projected with
  | Some current, Some projected =>
      if (current =? 0)%Z || (projected =? 0)%Z || (num_years <=? 1)%Z
      then Ok (if (current =? 0)%Z then [] else [current])
      else
        let total_change := (projected - current)%Z in
        annual_change <- Float64.true_divide total_change (num_years - 1) ;;
        trend_loop current annual_change (range num_years)
  | Some current, None => Ok (if (current =? 0)%Z then [] else [current])
  | None, _ => Ok []
  end.

(** The loop body without the overflow checks. *)
Definition element (current : Z) (annual_change : Q) (i : Z) : Z :=
  Float64.to_int
    (Float64.round (Float64.round (inject_Z current)
                    + Float64.round (annual_change
                                     * Float64.round (inject_Z i))))%Q.

(** The [i]-th element of the trend when nothing overflows. *)
Definition trend_value (current projected num_years i : Z) : Z :=
  element current
          (Float64.round (inject_Z (projected - current)
                          / inject_Z (num_years - 1))%Q) i.

(** [trend_years = list(range(2022, 2033))] *)
Definition trend_years : list Z := (fun i => (2022 + i)%Z) <$> range 11.

(** The [trend_employment] computed by [format_database_job_data] and by
    [format_bls_api_data]:
    [if current and projected: generate_employment_trend(current,
    projected, len(trend_years)) else: []]. *)
Definition trend_employment (current_employment0 projected_employment0 : option Z)
  : result (list Z) :=
  if truthy current_employment0 && truthy projected_employment0
  then generate_employment_trend current_employment0 projected_employment0
         (Z.of_nat (length trend_years))
  else Ok [].

(** ** bls_connector: connectivity check *)

(** The [try] covers the [IndexError] of an empty request and the
    [AttributeError] of a response that is not a dictionary. *)
Definition check_api_connectivity (w : World) : bool * World :=
  let '(test_data, w) :=
    get_bls_data ["LAUCN040010000000005"] "2020" "2020" w in
  match test_data <- test_data ;; as_dict test_data with
  | Ok test_data => (is_str (get test_data "status") "REQUEST_SUCCEEDED", w)
  | Raise _ => (false, w)
  end.

(** ** job_api_integration_database_only: risk from the stored category *)

Record CategoryRisk : Type := mkCategoryRisk {
  cat_year_1_risk : Q;
  cat_year_5_risk : Q;
  cat_risk_category : string;
  cat_risk_factors : list string;
  cat_protective_factors : list string
}.

Definition calculate_ai_risk_from_category (job_category0 occupation_code0 : string)
  : CategoryRisk :=
  if contains "Computer" job_category0 || contains "Technology" job_category0 then
    mkCategoryRisk 15 35 "Moderate"
      ["AI code generation tools"; "Automated testing"; "Low-code platforms"]
      ["Complex problem solving"; "System architecture"; "Creative solutions"]
  else if contains "Healthcare" job_category0 || contains "Medical" job_category0 then
    mkCategoryRisk 10 25 "Low"
      ["Administrative automation"; "AI diagnostics"; "Remote monitoring"]
      ["Patient care"; "Human empathy"; "Clinical judgment"]
  else if contains "Education" job_category0 || contains "Teaching" job_category0 then
    mkCategoryRisk 15 30 "Low"
      ["AI lesson planning"; "Automated grading"; "Educational software"]
      ["Student relationships"; "Classroom management";
       "Personalized instruction"]
  else if contains "Management" job_category0 || contains "Business" job_category0 then
    mkCategoryRisk 25 50 "Moderate"
      ["Project automation"; "AI scheduling"; "Reporting automation"]
      ["Strategic thinking"; "Leadership"; "Stakeholder management"]
  else
    mkCategoryRisk 20 40 "Moderate"
      ["Task automation"; "AI optimization"; "Process digitization"]
      ["Human judgment"; "Interpersonal skills"; "Adaptability"].

(** ** job_api_integration_database_only: formatting a stored row *)

Record JobData : Type := mkJobData {
  data_job_title : string;
  data_occupation_code : string;
  data_source : string;
  data_employment_data : list Z;
  data_latest_employment : string;
  data_current_employment : option Z;
  data_projected_employment : option Z;
  data_percent_change : option Q;
  data_annual_job_openings : option Z;
  data_risk : CategoryRisk;
  data_trend_years : list Z;
  data_trend_employment : list Z;
  data_median_wage : option json;
  data_wage_trend : string
}.

(** The row is the nine selected columns of one [bls_job_data] row; the
    second argument, [original_job_title], is not used by the source. *)
Definition format_database_job_data (row : BlsData) (original_job_title : string)
  : result JobData :=
  let risk_data :=
    calculate_ai_risk_from_category (job_category row) (occupation_code row) in
  trend <- trend_employment (current_employment row) (projected_employment row) ;;
  Ok (mkJobData
        (if String.eqb (standardized_title row) "" then job_title row
         else standardized_title row)
        (occupation_code row)
        "bls_database"
        []
        (match current_employment row with
         | Some n => if (n =? 0)%Z then "Not available" else pretty n
         | None => "Not available"
         end)
        (current_employment row) (projected_employment row)
        (percent_change row) (annual_job_openings row)
        risk_data
        trend_years trend
        (median_wage row)
        "Based on BLS data").

(** ** job_title_autocomplete_v2: ranking of suggestions *)

Record JobTitle : Type := mkJobTitle {
  title : string;
  soc_code : string;
  is_primary : bool
}.

Definition load_fallback_job_titles : list JobTitle := [
  mkJobTitle "Software Developer" "15-1252" true;
  mkJobTitle "Software Engineer" "15-1252" false;
  mkJobTitle "Web Developer" "15-1254" true;
  mkJobTitle "Registered Nurse" "29-1141" true;
  mkJobTitle "Nurse" "29-1141" false;
  mkJobTitle "Teacher" "25-2021" false;
  mkJobTitle "Elementary School Teacher" "25-2021" true;
  mkJobTitle "Lawyer" "23-1011" true;
  mkJobTitle "Attorney" "23-1011" false;
  mkJobTitle "Accountant" "13-2011" true;
  mkJobTitle "Architect" "17-1011" true;
  mkJobTitle "Doctor" "29-1215" false;
  mkJobTitle "Physician" "29-1215" true;
  mkJobTitle "Project Manager" "11-3021" true;
  mkJobTitle "Product Manager" "11-2021" true;
  mkJobTitle "Data Scientist" "15-2051" true;
  mkJobTitle "Data Analyst" "15-2041" true
].

(** [job == other] on the dictionaries *)
Definition job_eqb (a b : JobTitle) : bool :=
  String.eqb (title a) (title b) && String.eqb (soc_code a) (soc_code b)
  && Bool.eqb (is_primary a) (is_primary b).

(** [job in jobs] *)
Definition job_in (job : JobTitle) (jobs : list JobTitle) : bool :=
  existsb (job_eqb job) jobs.

(** [l[:limit]]: a negative limit counts from the end. *)
Definition slice_to {A} (l : list A) (limit : Z) : list A :=
  if (0 <=? limit)%Z then take (Z.to_nat limit) l
  else take (length l - Z.to_nat (- limit)) l.

(** [job_titles] is what [load_job_titles_from_db] returned: the rows of
    the store, or [load_fallback_job_titles]. *)
Definition search_job_titles (job_titles : list JobTitle) (query : string)
  (limit : Z) : list JobTitle :=
  if String.eqb query "" then
    let primary_titles := List.filter is_primary job_titles in
    slice_to primary_titles limit
  else
    let query_lower := lower query in
    let exact_matches :=
      List.filter (fun job => String.eqb (lower (title job)) query_lower)
                  job_titles in
    let starts_with_matches :=
      List.filter (fun job => startswith (lower (title job)) query_lower
                              && negb (job_in job exact_matches))
                  job_titles in
    let contains_matches :=
      List.filter (fun job => contains query_lower (lower (title job))
                              && negb (job_in job exact_matches)
                              && negb (job_in job starts_with_matches))
                  job_titles in
    let results := exact_matches ++ starts_with_matches ++ contains_matches in
    slice_to results limit.

(** ** What every operation preserves *)

(** [w'] keeps every alias of [w]. *)
Definition table_extends (w w' : World) : Prop :=
  forall k v,
    dict_get (JOB_TITLE_TO_SOC w) k = Some v ->
    dict_get (JOB_TITLE_TO_SOC w') k = Some v.

(** From [w] to [w'] the credential is the same, no alias is lost, and
    without a credential neither a request was posted nor a response
    cached. *)
Definition frame (w w' : World) : Prop :=
  BLS_API_KEY w' = BLS_API_KEY w /\
  table_extends w w' /\
  (api_key_of w = None ->
   posted w' = posted w /\ _api_cache w' = _api_cache w).

(** ** Worlds for examples *)

(** A freshly started process with a credential and no database, whose
    every request gets the same reply. *)
Definition connected_world (reply : Reply) : World :=
  mkWorld (Some "key") ∅ JOB_TITLE_TO_SOC_initial None 0 (fun _ _ => reply) [].



(** * Properties *)

(** ** Strings as character lists *)

Section StringFacts.

Lemma chars_str l : chars (str l) = l.
Proof. apply list_ascii_of_string_of_list_ascii. Qed.

Lemma str_chars s : str (chars s) = s.
Proof. apply string_of_list_ascii_of_string. Qed.

Lemma chars_inj s1 s2 : chars s1 = chars s2 -> s1 = s2.
Proof. intros H. rewrite <- (str_chars s1), <- (str_chars s2). by rewrite H. Qed.

Lemma length_chars s : String.length s = length (chars s).
Proof. induction s as [|c s IH]; simpl; [done | by rewrite IH]. Qed.

Lemma chars_app s1 s2 : chars (s1 ++ s2)%string = chars s1 ++ chars s2.
Proof. induction s1 as [|c s1 IH]; simpl; [done | by rewrite IH]. Qed.

Lemma lower_char_idem c : lower_char (lower_char c) = lower_char c.
Proof. destruct c as [[] [] [] [] [] [] [] []]; reflexivity. Qed.

Lemma startswith_chars_spec s p :
  startswith_chars s p = true <-> exists k, s = p ++ k.
Proof.
  revert s. induction p as [|a p IH]; intros s; simpl.
  - split; [intros _; by exists s | reflexivity].
  - destruct s as [|b s]; simpl.
    + split; [discriminate | intros [k Hk]; discriminate].
    + rewrite andb_true_iff, IH, Ascii.eqb_eq. split.
      * intros [-> [k ->]]. by exists k.
      * intros [k Hk]. injection Hk as -> ->. split; [done | by exists k].
Qed.

Lemma endswith_chars_spec s suf :
  endswith_chars s suf = true <-> exists k, s = k ++ suf.
Proof.
  unfold endswith_chars. rewrite startswith_chars_spec. split.
  - intros [k Hk]. exists (rev k).
    apply (f_equal (@rev ascii)) in Hk.
    rewrite rev_involutive, rev_app_distr, rev_involutive in Hk. done.
  - intros [k ->]. exists (rev k). by rewrite rev_app_distr.
Qed.

Lemma lstrip_chars_segment l : exists a, l = a ++ lstrip_chars l.
Proof.
  induction l as [|c l [a IH]]; simpl.
  - by exists [].
  - destruct (isspace c).
    + exists (c :: a). simpl. by rewrite <- IH.
    + by exists [].
Qed.

Lemma strip_chars_segment l : exists a b, l = a ++ strip_chars l ++ b.
Proof.
  unfold strip_chars, rstrip_chars.
  destruct (lstrip_chars_segment l) as [a Ha].
  destruct (lstrip_chars_segment (rev (lstrip_chars l))) as [b Hb].
  exists a, (rev b).
  rewrite <- rev_app_distr, <- Hb, rev_involutive. done.
Qed.

Lemma strip_chars_length l : length (strip_chars l) <= length l.
Proof.
  destruct (strip_chars_segment l) as (a & b & H).
  rewrite H at 2. rewrite !length_app. lia.
Qed.

Lemma strip_chars_length_eq l :
  length (strip_chars l) = length l -> strip_chars l = l.
Proof.
  intros Hlen. destruct (strip_chars_segment l) as (a & b & H).
  rewrite H in Hlen at 2. rewrite !length_app in Hlen.
  destruct a; [| simpl in Hlen; lia].
  destruct b; [| simpl in Hlen; lia].
  simpl in H. rewrite app_nil_r in H. done.
Qed.

Lemma lstrip_chars_idem l : lstrip_chars (lstrip_chars l) = lstrip_chars l.
Proof.
  induction l as [|c l IH]; simpl; [done |].
  destruct (isspace c) eqn:E; [exact IH |]. simpl. by rewrite E.
Qed.

Lemma lstrip_chars_fixed_head c l :
  lstrip_chars (c :: l) = c :: l -> isspace c = false.
Proof.
  simpl. destruct (isspace c); [| done]. intros H.
  destruct (lstrip_chars_segment l) as [a Ha].
  apply (f_equal (@length ascii)) in H, Ha.
  rewrite length_app in Ha. simpl in H. lia.
Qed.

Lemma strip_chars_idem l : strip_chars (strip_chars l) = strip_chars l.
Proof.
  unfold strip_chars, rstrip_chars.
  set (m := lstrip_chars l).
  assert (lstrip_chars m = m) as Hm by apply lstrip_chars_idem.
  set (r := rev (lstrip_chars (rev m))).
  assert (lstrip_chars r = r) as Hr.
  { destruct (lstrip_chars_segment (rev m)) as [b Hb].
    assert (m = r ++ rev b) as Hmr.
    { unfold r. rewrite <- rev_app_distr, <- Hb. by rewrite rev_involutive. }
    destruct r as [|c r']; [done |].
    rewrite Hmr in Hm. simpl in Hm.
    apply lstrip_chars_fixed_head in Hm. simpl. by rewrite Hm. }
  rewrite Hr. unfold r. rewrite rev_involutive, lstrip_chars_idem. done.
Qed.

Lemma lowered_map l : lowered (map lower_char l).
Proof. apply Forall_forall. intros c Hc. apply list_elem_of_In, in_map_iff in Hc.
       destruct Hc as (c' & <- & _). apply lower_char_idem. Qed.

Lemma lowered_fixed l : lowered l -> map lower_char l = l.
Proof. induction 1 as [|c l Hc _ IH]; simpl; [done | by rewrite Hc, IH]. Qed.

Lemma lowered_app_inv a b : lowered (a ++ b) -> lowered a /\ lowered b.
Proof. apply Forall_app. Qed.

Lemma lowered_strip l : lowered l -> lowered (strip_chars l).
Proof.
  intros H. destruct (strip_chars_segment l) as (a & b & E).
  rewrite E in H. apply lowered_app_inv in H as [_ H].
  by apply lowered_app_inv in H as [H _].
Qed.

Lemma lowered_take n l : lowered l -> lowered (take n l).
Proof. intros H. rewrite <- (take_drop n l) in H. by apply lowered_app_inv in H as [H _]. Qed.

End StringFacts.

(** ** Title normalizer *)

Section Normalizer.

Lemma suffixes_nonempty tok : In tok suffixes -> String.length tok <> 0.
Proof.
  simpl. intros H.
  repeat (destruct H as [<- | H]; [simpl; lia |]). destruct H.
Qed.

Lemma endswith_spec s tok :
  endswith s tok = true <-> exists k, s = (k ++ tok)%string.
Proof.
  unfold endswith. rewrite endswith_chars_spec. split.
  - intros [k Hk]. exists (str k). apply chars_inj.
    by rewrite chars_app, chars_str.
  - intros [k ->]. exists (chars k). apply chars_app.
Qed.

Lemma drop_last_app k tok :
  String.length tok <> 0 -> drop_last (k ++ tok) (String.length tok) = k.
Proof.
  intros Hne. unfold drop_last, slice_to_minus.
  destruct (String.length tok) eqn:E; [done |]. rewrite <- E.
  rewrite chars_app, length_app, length_chars.
  replace (length (chars k) + length (chars tok) - length (chars tok))
    with (length (chars k)) by lia.
  by rewrite take_app_length, str_chars.
Qed.

Lemma drop_last_length s n :
  n <> 0 -> n <= String.length s ->
  String.length (drop_last s n) = String.length s - n.
Proof.
  intros Hn Hle. unfold drop_last, slice_to_minus.
  destruct n as [|n]; [done |].
  rewrite !length_chars, chars_str, length_take. rewrite length_chars in Hle. lia.
Qed.

(** The loop returns at the first token of [todo] that matches. *)
Lemma strip_suffix_loop_find todo s :
  match List.find (endswith s) todo with
  | Some tok => strip_suffix_loop todo s = drop_last s (String.length tok)
  | None => strip_suffix_loop todo s = s
  end.
Proof.
  induction todo as [|tok todo IH]; simpl; [done |].
  destruct (endswith s tok); [done | exact IH].
Qed.

Lemma strip_suffix_loop_length todo s :
  (forall tok, In tok todo -> String.length tok <> 0) ->
  String.length (strip_suffix_loop todo s) <= String.length s /\
  (String.length (strip_suffix_loop todo s) = String.length s ->
   forall tok, In tok todo -> endswith s tok = false).
Proof.
  intros Hne. pose proof (strip_suffix_loop_find todo s) as H.
  destruct (List.find (endswith s) todo) as [tok|] eqn:F.
  - apply find_some in F as [Hin Hend].
    apply endswith_spec in Hend as [k ->]. specialize (Hne _ Hin).
    rewrite H, drop_last_app by done.
    rewrite !length_chars, chars_app, length_app.
    rewrite length_chars in Hne. split; lia.
  - rewrite H. split; [lia |]. intros _ tok Hin.
    apply (find_none _ _ F tok Hin).
Qed.

Lemma strip_suffix_loop_none todo s :
  (forall tok, In tok todo -> endswith s tok = false) ->
  strip_suffix_loop todo s = s.
Proof.
  induction todo as [|tok todo IH]; simpl; intros H; [done |].
  rewrite (H tok) by auto. apply IH. auto.
Qed.

Lemma strip_suffix_loop_lowered todo s :
  lowered (chars s) -> lowered (chars (strip_suffix_loop todo s)).
Proof.
  intros Hs. induction todo as [|tok todo IH]; simpl; [done |].
  destruct (endswith s tok); [| done].
  unfold drop_last, slice_to_minus. destruct (String.length tok).
  - rewrite chars_str. constructor.
  - rewrite chars_str. by apply lowered_take.
Qed.

Lemma standardize_lowered title :
  lower (standardize_job_title title) = standardize_job_title title.
Proof.
  unfold lower at 1. rewrite lowered_fixed; [apply str_chars |].
  apply strip_suffix_loop_lowered. unfold strip, lower.
  rewrite !chars_str. apply lowered_strip, lowered_map.
Qed.

Lemma strip_length s : String.length (strip s) <= String.length s.
Proof. unfold strip. rewrite !length_chars, chars_str. apply strip_chars_length. Qed.

Lemma strip_length_eq s : String.length (strip s) = String.length s -> strip s = s.
Proof.
  unfold strip. rewrite !length_chars, chars_str. intros H.
  rewrite (strip_chars_length_eq _ H). apply str_chars.
Qed.

End Normalizer.



(** C5, as stated, fails: a title carrying two suffix tokens loses one of
    them per pass. *)
Lemma standardize_not_idempotent :
  standardize_job_title (standardize_job_title "Nurse III Senior")
  <> standardize_job_title "Nurse III Senior".
Proof. vm_compute. discriminate. Qed.

(** C5, amended. Normalizing a second time changes nothing exactly when the
    normalized title has no leading or trailing whitespace and ends with none
    of the suffix tokens; in particular it changes nothing for every title
    in which the first pass found no suffix token to strip. *)
Theorem standardize_idempotent_iff (title : string) :
  let n := standardize_job_title title in
  (standardize_job_title n = n <->
   strip n = n /\ forall tok, In tok suffixes -> endswith n tok = false) /\
  ((forall tok, In tok suffixes -> endswith (strip (lower title)) tok = false) ->
   standardize_job_title n = n).
Proof.
  intros n.
  assert (standardize_job_title n = n <->
          strip n = n /\ forall tok, In tok suffixes -> endswith n tok = false)
    as Hiff.
  { unfold standardize_job_title at 1.
    replace (lower n) with n by (symmetry; apply standardize_lowered).
    pose proof (strip_suffix_loop_length suffixes (strip n) suffixes_nonempty)
      as [Hle Heq].
    pose proof (strip_length n) as Hs.
    split.
    - intros H. rewrite H in Hle, Heq.
      assert (strip n = n) as E by (apply strip_length_eq; lia).
      split; [done |]. rewrite E in Heq. by apply Heq.
    - intros [E Hnone]. rewrite E. by apply strip_suffix_loop_none. }
  split; [exact Hiff |].
  intros Hnone. apply Hiff.
  assert (n = strip (lower title)) as ->
    by (by apply strip_suffix_loop_none).
  split; [| exact Hnone].
  unfold strip. by rewrite chars_str, strip_chars_idem.
Qed.

Lemma standardize_idempotent_iff_witness :
  standardize_job_title (standardize_job_title "Registered Nurse")
  = standardize_job_title "Registered Nurse".
Proof.
  apply (proj2 (standardize_idempotent_iff "Registered Nurse")).
  intros tok H. simpl in H.
  repeat (destruct H as [<- | H]; [vm_compute; reflexivity |]). destruct H.
Defined.

(** ** Risk scorer *)

Section RiskScorer.
Local Open Scope Q_scope.

Lemma risk_category_low y : y < 30 -> risk_category_of y = "Low"%string.
Proof.
  intros H. unfold risk_category_of.
  destruct (Qlt_le_dec y 30) as [_|H']; [done |].
  exfalso. apply (Qlt_not_le _ _ H H').
Qed.

Lemma risk_category_moderate y :
  30 <= y -> y < 50 -> risk_category_of y = "Moderate"%string.
Proof.
  intros H1 H2. unfold risk_category_of.
  destruct (Qlt_le_dec y 30) as [H'|_]; [exfalso; apply (Qlt_not_le _ _ H' H1) |].
  destruct (Qlt_le_dec y 50) as [_|H']; [done |].
  exfalso. apply (Qlt_not_le _ _ H2 H').
Qed.

Lemma risk_category_high y :
  50 <= y -> y < 70 -> risk_category_of y = "High"%string.
Proof.
  intros H1 H2. unfold risk_category_of.
  destruct (Qlt_le_dec y 30) as [H'|_].
  { exfalso. apply (Qlt_not_le _ _ H'). apply Qle_trans with 50; [done | exact H1]. }
  destruct (Qlt_le_dec y 50) as [H'|_]; [exfalso; apply (Qlt_not_le _ _ H' H1) |].
  destruct (Qlt_le_dec y 70) as [_|H']; [done |].
  exfalso. apply (Qlt_not_le _ _ H2 H').
Qed.

Lemma risk_category_very_high y :
  70 <= y -> risk_category_of y = "Very High"%string.
Proof.
  intros H1. unfold risk_category_of.
  destruct (Qlt_le_dec y 30) as [H'|_].
  { exfalso. apply (Qlt_not_le _ _ H'). apply Qle_trans with 70; [done | exact H1]. }
  destruct (Qlt_le_dec y 50) as [H'|_].
  { exfalso. apply (Qlt_not_le _ _ H'). apply Qle_trans with 70; [done | exact H1]. }
  destruct (Qlt_le_dec y 70) as [H'|_]; [exfalso; apply (Qlt_not_le _ _ H' H1) |].
  done.
Qed.

Lemma calculate_ai_risk_category job_title job_category :
  risk_category (calculate_ai_risk job_title job_category)
  = risk_category_of (year_5_risk (calculate_ai_risk job_title job_category)).
Proof.
  unfold calculate_ai_risk.
  destruct (default default_risk (dict_get category_risk_scores job_category)).
  reflexivity.
Qed.

End RiskScorer.

(** C3. The tier reported by [calculate_ai_risk] is a function of the
    five-year score alone, with half-open bands: below 30 is Low, from 30 up
    to but excluding 50 is Moderate, from 50 up to but excluding 70 is High,
    70 and above is Very High; so 29.999 is Low, 30.0 and 49.999 are
    Moderate, 50.0 is High and 70.0 is Very High, as the table's own
    categories scored 30, 50 and 70 show. *)
Theorem risk_tier_half_open_bands :
  (forall job_title job_category,
      risk_category (calculate_ai_risk job_title job_category)
      = risk_category_of (year_5_risk (calculate_ai_risk job_title job_category))) /\
  (forall y : Q,
      ((y < 30)%Q -> risk_category_of y = "Low") /\
      ((30 <= y)%Q -> (y < 50)%Q -> risk_category_of y = "Moderate") /\
      ((50 <= y)%Q -> (y < 70)%Q -> risk_category_of y = "High") /\
      ((70 <= y)%Q -> risk_category_of y = "Very High")) /\
  risk_category_of (29999 # 1000)%Q = "Low" /\
  risk_category_of 30%Q = "Moderate" /\
  risk_category_of (49999 # 1000)%Q = "Moderate" /\
  risk_category_of 50%Q = "High" /\
  risk_category_of 70%Q = "Very High" /\
  (forall job_title,
      risk_category (calculate_ai_risk job_title "Healthcare Practitioners")
      = "Moderate" /\
      risk_category (calculate_ai_risk job_title "Computer and Mathematical")
      = "High" /\
      risk_category
        (calculate_ai_risk job_title "Office and Administrative Support")
      = "Very High").
Proof.
  split; [exact calculate_ai_risk_category |].
  split.
  { intros y. split; [apply risk_category_low |].
    split; [apply risk_category_moderate |].
    split; [apply risk_category_high | apply risk_category_very_high]. }
  repeat split; reflexivity.
Qed.

Lemma risk_tier_half_open_bands_witness :
  risk_category_of (65 # 1)%Q = "High".
Proof.
  apply (proj2 (proj2 (proj1 (proj2 risk_tier_half_open_bands) (65 # 1)%Q)));
    [apply Qle_bool_imp_le | apply Qlt_alt]; reflexivity.
Defined.

(** C2, as stated, fails: the default pair (35.0, 55.0) has a five-year
    score of 55, which the tier chain places in High, not Moderate. *)
Lemma default_risk_tier_not_moderate :
  dict_get category_risk_scores "General" = None /\
  risk_category (calculate_ai_risk "Astronaut" "General") <> "Moderate".
Proof. split; [reflexivity | vm_compute; discriminate]. Qed.

(** C2, amended. For every category missing from [category_risk_scores],
    [calculate_ai_risk] returns the default pair (35.0, 55.0), and the tier
    that goes with it is High. *)
Theorem unknown_category_default_risk (job_title job_category : string) :
  dict_get category_risk_scores job_category = None ->
  year_1_risk (calculate_ai_risk job_title job_category) = 35%Q /\
  year_5_risk (calculate_ai_risk job_title job_category) = 55%Q /\
  risk_category (calculate_ai_risk job_title job_category) = "High".
Proof.
  intros H. unfold calculate_ai_risk. rewrite H. simpl. done.
Qed.

Lemma unknown_category_default_risk_witness :
  year_1_risk (calculate_ai_risk "Astronaut" "General") = 35%Q /\
  year_5_risk (calculate_ai_risk "Astronaut" "General") = 55%Q /\
  risk_category (calculate_ai_risk "Astronaut" "General") = "High".
Proof. apply unknown_category_default_risk. reflexivity. Defined.

(** ** Upstream fetcher: response cache *)

Section Fetcher.

Lemma cache_extends_refl w : cache_extends w w.
Proof. by split. Qed.

Lemma cache_extends_trans w1 w2 w3 :
  cache_extends w1 w2 -> cache_extends w2 w3 -> cache_extends w1 w3.
Proof.
  intros [K1 C1] [K2 C2]. split; [congruence | auto].
Qed.


Lemma get_bls_data_extends series_ids start_year end_year w :
  cache_extends w (snd (get_bls_data series_ids start_year end_year w)).
Proof.
  unfold get_bls_data.
  destruct (api_key_of w) as [api_key|].
  - destruct (_api_cache w !! cache_key series_ids start_year end_year) eqn:E;
      [apply cache_extends_refl |].
    destruct (upstream w _ _); simpl; (split; [done |]); simpl; [| done].
    intros k d Hk. rewrite lookup_insert_ne; [done |].
    intros <-. congruence.
  - destruct series_ids; apply cache_extends_refl.
Qed.

Lemma get_occupation_data_extends occ_code w :
  cache_extends w (snd (get_occupation_data occ_code w)).
Proof.
  unfold get_occupation_data.
  destruct (dict_get series_mapping occ_code) as [sid|]; [| apply cache_extends_refl].
  pose proof (get_bls_data_extends [sid] (pretty (current_year w - 5)%Z)
                (pretty (current_year w)) w) as H.
  destruct (get_bls_data _ _ _ w) as [r w']. exact H.
Qed.

Lemma find_occupation_code_extends job_title0 w :
  cache_extends w (snd (find_occupation_code job_title0 w)).
Proof.
  unfold find_occupation_code.
  destruct (dict_get _ _); [apply cache_extends_refl |].
  destruct (partial_match _ _); [apply cache_extends_refl |].
  destruct (search_occupations _); [apply cache_extends_refl | by split].
Qed.

Lemma get_bls_data_from_db_world occupation_code0 w :
  snd (get_bls_data_from_db occupation_code0 w) = w.
Proof.
  unfold get_bls_data_from_db.
  destruct (engine w) as [db|]; [| done].
  destruct (reachable db); simpl; [| done].
  destruct (latest_row _); [| done].
  by destruct (_ <? _)%Z.
Qed.

Lemma save_bls_data_to_db_extends data w :
  cache_extends w (snd (save_bls_data_to_db data w)).
Proof.
  unfold save_bls_data_to_db.
  destruct (engine w) as [db|]; [| apply cache_extends_refl].
  destruct (reachable db); simpl; [| apply cache_extends_refl].
  by split.
Qed.

Lemma fetch_bls_data_extends job_title0 w :
  cache_extends w (snd (fetch_bls_data job_title0 w)).
Proof.
  unfold fetch_bls_data.
  pose proof (find_occupation_code_extends job_title0 w) as H1.
  destruct (find_occupation_code job_title0 w) as [[[code std] cat] w1].
  pose proof (get_bls_data_from_db_world code w1) as H2.
  destruct (get_bls_data_from_db code w1) as [db_data w2].
  simpl in H1, H2. subst w2.
  destruct db_data; [exact H1 |].
  pose proof (get_occupation_data_extends code w1) as H3.
  destruct (get_occupation_data code w1) as [[occ|e] w3]; simpl in H3.
  - match goal with
    | |- context [save_bls_data_to_db ?d w3] =>
        pose proof (save_bls_data_to_db_extends d w3) as H4;
        destruct (save_bls_data_to_db d w3) as [ok w4]
    end.
    simpl in *. eauto using cache_extends_trans.
  - simpl. eauto using cache_extends_trans.
Qed.

Lemma get_complete_job_data_extends job_title0 w :
  cache_extends w (snd (get_complete_job_data job_title0 w)).
Proof.
  unfold get_complete_job_data.
  pose proof (find_occupation_code_extends job_title0 w) as H1.
  destruct (find_occupation_code job_title0 w) as [[[code std] cat] w1].
  pose proof (fetch_bls_data_extends job_title0 w1) as H2.
  destruct (fetch_bls_data job_title0 w1) as [[d|e] w2];
    simpl in *; eauto using cache_extends_trans.
Qed.

Lemma run_extends w op : cache_extends w (run w op).
Proof.
  destruct op; simpl.
  - apply get_bls_data_extends.
  - apply get_occupation_data_extends.
  - apply find_occupation_code_extends.
  - rewrite get_bls_data_from_db_world. apply cache_extends_refl.
  - apply save_bls_data_to_db_extends.
  - apply fetch_bls_data_extends.
  - apply get_complete_job_data_extends.
  - by split.
Qed.

Lemma run_all_extends ops : forall w, cache_extends w (run_all w ops).
Proof.
  induction ops as [|op ops IH]; intros w; simpl.
  - apply cache_extends_refl.
  - eapply cache_extends_trans; [apply run_extends | apply IH].
Qed.

(** A cached key is served from the cache, whatever the order in which the
    series ids are given; the world, and with it the list of POSTs, stays. *)
Lemma get_bls_data_hit w api_key series_ids series_ids' start_year end_year data :
  api_key_of w = Some api_key ->
  _api_cache w !! cache_key series_ids start_year end_year = Some data ->
  sorted series_ids' = sorted series_ids ->
  get_bls_data series_ids' start_year end_year w = (Ok data, w).
Proof.
  intros K C S. unfold get_bls_data. rewrite K.
  replace (cache_key series_ids' start_year end_year)
    with (cache_key series_ids start_year end_year)
    by (unfold cache_key; by rewrite S).
  by rewrite C.
Qed.

End Fetcher.



(** C10. Without a credential, [get_bls_data] on an empty list of series
    ids raises [IndexError] (the sample response reads [series_ids[0]]); on
    every non-empty list it returns a response. *)
Theorem get_bls_data_sample_needs_series_id
  (w : World) (start_year end_year : string) :
  api_key_of w = None ->
  get_bls_data [] start_year end_year w = (Raise IndexError, w) /\
  forall series_ids, series_ids <> [] ->
    exists response, get_bls_data series_ids start_year end_year w = (Ok response, w).
Proof.
  intros K. unfold get_bls_data. rewrite K. split; [done |].
  intros [|series_id rest] Hne; [done |]. by eexists.
Qed.

Lemma get_bls_data_sample_needs_series_id_witness :
  get_bls_data [] "2020" "2020"
    offline_world
  = (Raise IndexError,
     offline_world).
Proof.
  apply (proj1 (get_bls_data_sample_needs_series_id offline_world "2020" "2020" eq_refl)).
Defined.

(** Had the sample carried the status the upstream service reports, the
    parser would have accepted it. *)
Example sample_series_parses_with_upstream_status :
  (fields <- as_dict (sample_response "OEU1025560000000015125201") ;;
   d <- parse_occupation_response
          (JDict (dict_set fields "status" (JStr "REQUEST_SUCCEEDED")))
          "15-1252" ;;
   Ok (get_latest_value d))
  = Ok (Some (JStr "120000")).
Proof. reflexivity. Qed.

(** C9. Without a credential, [get_bls_data] answers a non-empty request
    with the fixed sample series, whose status is ["success"];
    [parse_occupation_response] accepts only the status
    ["REQUEST_SUCCEEDED"], so [get_occupation_data] turns the sample into an
    error result for both mapped codes, and an empty request raises. *)
Theorem sample_series_is_rejected
  (w : World) (start_year end_year : string) :
  api_key_of w = None ->
  (forall series_id rest,
      get_bls_data (series_id :: rest) start_year end_year w
      = (Ok (sample_response series_id), w)) /\
  (forall series_id occ_code,
      parse_occupation_response (sample_response series_id) occ_code
      = Ok (OccupationError (Formatted "BLS API request failed: " (JList [])))) /\
  get_occupation_data "15-1252" w
  = (Ok (OccupationError (Formatted "BLS API request failed: " (JList []))), w) /\
  get_occupation_data "11-9111" w
  = (Ok (OccupationError (Formatted "BLS API request failed: " (JList []))), w) /\
  get_bls_data [] start_year end_year w = (Raise IndexError, w).
Proof.
  intros K.
  assert (forall series_id rest s e,
             get_bls_data (series_id :: rest) s e w
             = (Ok (sample_response series_id), w)) as G.
  { intros. unfold get_bls_data. by rewrite K. }
  split; [intros; apply G |].
  split; [reflexivity |].
  split; [| split].
  - unfold get_occupation_data. simpl. by rewrite G.
  - unfold get_occupation_data. simpl. by rewrite G.
  - unfold get_bls_data. by rewrite K.
Qed.

Lemma sample_series_is_rejected_witness :
  get_occupation_data "15-1252"
    offline_world
  = (Ok (OccupationError (Formatted "BLS API request failed: " (JList []))),
     offline_world).
Proof.
  apply (proj1 (proj2 (proj2
           (sample_series_is_rejected offline_world "2019" "2024" eq_refl)))).
Defined.

(** ** Statistics store adapter *)

Section Store.
Local Open Scope Z_scope.

Lemma days_since_update_today w data :
  days_since_update w data = today w - last_updated data.
Proof.
  unfold days_since_update, today.
  replace (now w - last_updated data * microseconds_per_day)
    with (now w + (- last_updated data) * microseconds_per_day) by lia.
  rewrite Z.div_add by (unfold microseconds_per_day; lia). lia.
Qed.

Lemma rows_for_In code db r :
  In r (rows_for code db) <-> In r (rows db) /\ occupation_code r = code.
Proof.
  unfold rows_for. rewrite filter_In, String.eqb_eq. done.
Qed.

Lemma latest_row_None candidates :
  latest_row candidates = None <-> candidates = [].
Proof.
  destruct candidates as [|r rest]; simpl; [done |].
  split; [| done].
  destruct (latest_row rest) as [r'|]; [| done].
  by destruct (last_updated r <? last_updated r').
Qed.

Lemma latest_row_Some candidates data :
  latest_row candidates = Some data ->
  In data candidates /\
  forall r, In r candidates -> last_updated r <= last_updated data.
Proof.
  revert data. induction candidates as [|r0 rest IH]; intros data; simpl; [done |].
  destruct (latest_row rest) as [r'|] eqn:E.
  - destruct (IH r' eq_refl) as [Hin Hmax].
    destruct (last_updated r0 <? last_updated r') eqn:C; intros [= <-].
    + apply Z.ltb_lt in C. split; [by right |].
      intros r [<- | Hr]; [lia | by apply Hmax].
    + apply Z.ltb_ge in C. split; [by left |].
      intros r [<- | Hr]; [lia |]. specialize (Hmax r Hr). lia.
  - intros [= <-]. apply latest_row_None in E as ->.
    split; [by left |]. intros r [<- | []]. lia.
Qed.

Lemma get_bls_data_from_db_env code w w' :
  engine w = engine w' -> now w = now w' ->
  fst (get_bls_data_from_db code w) = fst (get_bls_data_from_db code w').
Proof.
  intros He Hn. unfold get_bls_data_from_db, days_since_update.
  rewrite <- He, <- Hn.
  destruct (engine w) as [db|]; [| done].
  destruct (reachable db); simpl; [| done].
  destruct (latest_row _); [| done].
  by destruct (_ <? 90).
Qed.

End Store.

(** C1. With the store available: when it holds no record for the code,
    [get_bls_data_from_db] returns nothing; otherwise it looks at the most
    recently updated record for the code and returns nothing when today
    minus its [last_updated] date is 90 days or more, and that record when
    it is less than 90 days; the store is left as it was in every case.  A
    record dated 91 days back is a miss, one dated 89 days back is a hit. *)
Theorem get_bls_data_from_db_freshness
  (w : World) (db : Database) (code : string) :
  engine w = Some db -> reachable db = true ->
  (rows_for code db = [] -> get_bls_data_from_db code w = (None, w)) /\
  (rows_for code db <> [] ->
   exists data, latest_row (rows_for code db) = Some data) /\
  (forall data, latest_row (rows_for code db) = Some data ->
     (In data (rows db) /\ occupation_code data = code /\
      forall r, In r (rows db) -> occupation_code r = code ->
                (last_updated r <= last_updated data)%Z) /\
     days_since_update w data = (today w - last_updated data)%Z /\
     ((90 <= today w - last_updated data)%Z ->
      get_bls_data_from_db code w = (None, w)) /\
     ((today w - last_updated data < 90)%Z ->
      get_bls_data_from_db code w = (Some data, w)) /\
     (last_updated data = (today w - 91)%Z ->
      get_bls_data_from_db code w = (None, w)) /\
     (last_updated data = (today w - 89)%Z ->
      get_bls_data_from_db code w = (Some data, w))).
Proof.
  intros He Hr.
  assert (forall data, latest_row (rows_for code db) = Some data ->
            ((90 <= today w - last_updated data)%Z ->
             get_bls_data_from_db code w = (None, w)) /\
            ((today w - last_updated data < 90)%Z ->
             get_bls_data_from_db code w = (Some data, w))) as Hfresh.
  { intros data Hl. unfold get_bls_data_from_db.
    rewrite He, Hr, Hl, days_since_update_today. simpl. split; intros H.
    - apply Z.ltb_ge in H. by rewrite H.
    - apply Z.ltb_lt in H. by rewrite H. }
  split; [| split].
  - intros Hnone. unfold get_bls_data_from_db. by rewrite He, Hr, Hnone.
  - intros Hne. destruct (latest_row (rows_for code db)) as [data|] eqn:E.
    + by exists data.
    + by apply latest_row_None in E.
  - intros data Hl. destruct (Hfresh data Hl) as [Hstale Hok].
    destruct (latest_row_Some _ _ Hl) as [Hin Hmax].
    apply rows_for_In in Hin as [Hin Hcode].
    split; [| split; [| split; [| split; [| split]]]].
    + split; [done | split; [done |]]. intros r Hr1 Hr2.
      apply Hmax, rows_for_In. done.
    + apply days_since_update_today.
    + exact Hstale.
    + exact Hok.
    + intros E. apply Hstale. lia.
    + intros E. apply Hok. lia.
Qed.

Lemma get_bls_data_from_db_freshness_witness :
  let fresh := mkBlsData (Some 1%Z) "29-1141" "Registered Nurse"
                 "Registered Nurse" "Healthcare Practitioners"
                 (Some 3130600%Z) (Some 3458200%Z) (Some (105 # 10)%Q)
                 (Some 203200%Z) None 19911 in
  let w := mkWorld None ∅ JOB_TITLE_TO_SOC_initial
             (Some (mkDatabase true [fresh]))
             (20000 * microseconds_per_day + 43200000000)
             (fun _ _ => RequestException "offline") [] in
  get_bls_data_from_db "29-1141" w = (Some fresh, w).
Proof.
  intros fresh w.
  refine (proj2 (proj2 (proj2 (proj2 (proj2 (proj2 (proj2
            (get_bls_data_from_db_freshness w (mkDatabase true [fresh])
               "29-1141" eq_refl eq_refl)) fresh eq_refl))))) _).
  reflexivity.
Defined.

(** ** Pipeline on unmapped occupation codes *)

Section Pipeline.

Lemma dict_get_dict_set {V} (d : dict V) k v k' :
  dict_get (dict_set d k v) k'
  = if String.eqb k k' then Some v else dict_get d k'.
Proof.
  induction d as [|[k0 v0] d IH]; simpl; [done |].
  destruct (String.eqb k0 k) eqn:E0; simpl.
  - apply String.eqb_eq in E0 as ->. by destruct (String.eqb k k').
  - rewrite IH. destruct (String.eqb k0 k') eqn:E1; [| done].
    apply String.eqb_eq in E1 as ->.
    by rewrite String.eqb_sym, E0.
Qed.

Lemma partial_match_dict_set d k v s :
  partial_match d s = None ->
  partial_match (dict_set d k v) s = None \/
  partial_match (dict_set d k v) s = Some v.
Proof.
  induction d as [|[k0 v0] d IH]; simpl.
  - intros _. destruct (_ || _); auto.
  - destruct (contains k0 s || contains s k0) eqn:C; [done |].
    intros H. destruct (String.eqb k0 k); simpl; rewrite C; auto.
Qed.

Lemma find_occupation_code_env job_title0 w :
  engine (snd (find_occupation_code job_title0 w)) = engine w /\
  now (snd (find_occupation_code job_title0 w)) = now w.
Proof.
  unfold find_occupation_code.
  destruct (dict_get _ _); [done |].
  destruct (partial_match _ _); [done |].
  by destruct (search_occupations _).
Qed.

(** Resolving the same title again, after the table has learnt from the
    first resolution, gives the same code and category. *)
Lemma find_occupation_code_stable job_title0 w code title cat w1 :
  find_occupation_code job_title0 w = ((code, title, cat), w1) ->
  exists title' w1',
    find_occupation_code job_title0 w1 = ((code, title', cat), w1').
Proof.
  unfold find_occupation_code.
  destruct (dict_get (JOB_TITLE_TO_SOC w) _) as [c|] eqn:G.
  { intros [= <- <- <- <-]. rewrite G. by eexists _, _. }
  destruct (partial_match (JOB_TITLE_TO_SOC w) _) as [c|] eqn:P.
  { intros [= <- <- <- <-]. rewrite G, P. by eexists _, _. }
  destruct (search_occupations job_title0) as [|best rest] eqn:S.
  { intros [= <- <- <- <-]. rewrite G, P. by eexists _, _. }
  intros [= <- <- <- <-]. simpl.
  rewrite dict_get_dict_set, G.
  destruct (String.eqb _ (standardize_job_title job_title0)).
  { by eexists _, _. }
  destruct (partial_match_dict_set (JOB_TITLE_TO_SOC w)
              (standardize_job_title best.2) best.1
              (standardize_job_title job_title0) P) as [-> | ->];
    by eexists _, _.
Qed.

Lemma get_occupation_data_unmapped occ_code w :
  dict_get series_mapping occ_code = None ->
  get_occupation_data occ_code w
  = (Ok (OccupationError
           (Text ("No BLS series ID mapping found for occupation code "
                    ++ occ_code))), w).
Proof. intros H. unfold get_occupation_data. by rewrite H. Qed.

Lemma fetch_bls_data_unmapped job_title0 w code title cat w1 :
  find_occupation_code job_title0 w = ((code, title, cat), w1) ->
  dict_get series_mapping code = None ->
  fetch_bls_data job_title0 w
  = match fst (get_bls_data_from_db code w1) with
    | Some db_data => (Ok db_data, w1)
    | None =>
        (Ok (assembled job_title0 code title cat w1),
         snd (save_bls_data_to_db (assembled job_title0 code title cat w1) w1))
    end.
Proof.
  intros F M. unfold fetch_bls_data. rewrite F.
  pose proof (get_bls_data_from_db_world code w1) as Hw.
  destruct (get_bls_data_from_db code w1) as [db_data w2]. simpl in *. subst w2.
  destruct db_data; [done |].
  rewrite (get_occupation_data_unmapped _ _ M).
  unfold assembled, get_employment_projection.
  destruct (dict_get projections_table code); simpl;
    match goal with
    | |- context [save_bls_data_to_db ?d w1] =>
        by destruct (save_bls_data_to_db d w1)
    end.
Qed.

End Pipeline.

(** C8. For a code that has no entry in [series_mapping],
    [get_occupation_data] returns an error result carrying the "no mapping"
    message and raises nothing.  A title that resolves to such a code makes
    neither [fetch_bls_data] nor [get_complete_job_data] raise; when the store
    has no fresh record for the code, the structure they return has no median
    wage, and its employment figures are those of the projection table, or
    absent as well when the code is not in that table either. *)
Theorem unmapped_code_degrades_to_nulls :
  (forall occ_code w,
      dict_get series_mapping occ_code = None ->
      get_occupation_data occ_code w
      = (Ok (OccupationError
               (Text ("No BLS series ID mapping found for occupation code "
                        ++ occ_code))), w)) /\
  (forall job_title0 w code title cat w1,
      find_occupation_code job_title0 w = ((code, title, cat), w1) ->
      dict_get series_mapping code = None ->
      (exists data w2, fetch_bls_data job_title0 w = (Ok data, w2)) /\
      (exists r w2, get_complete_job_data job_title0 w = (Ok r, w2) /\
                    result_occupation_code r = code) /\
      (fst (get_bls_data_from_db code w1) = None ->
       (exists data w2,
           fetch_bls_data job_title0 w = (Ok data, w2) /\
           occupation_code data = code /\
           median_wage data = None /\
           current_employment data
           = proj_current_employment <$> dict_get projections_table code /\
           projected_employment data
           = proj_projected_employment <$> dict_get projections_table code /\
           percent_change data
           = proj_percent_change <$> dict_get projections_table code /\
           annual_job_openings data
           = proj_annual_job_openings <$> dict_get projections_table code) /\
       (exists r w2,
           get_complete_job_data job_title0 w = (Ok r, w2) /\
           result_occupation_code r = code /\
           result_median_wage r = None /\
           result_employment r
           = proj_current_employment <$> dict_get projections_table code /\
           result_projected_employment r
           = proj_projected_employment <$> dict_get projections_table code /\
           result_employment_change_percent r
           = proj_percent_change <$> dict_get projections_table code /\
           result_annual_job_openings r
           = proj_annual_job_openings <$> dict_get projections_table code))).
Proof.
  split; [exact get_occupation_data_unmapped |].
  intros job_title0 w code title cat w1 F M.
  pose proof (fetch_bls_data_unmapped _ _ _ _ _ _ F M) as Hfetch.
  destruct (find_occupation_code_stable _ _ _ _ _ _ F) as (title' & w1' & F').
  pose proof (fetch_bls_data_unmapped _ _ _ _ _ _ F' M) as Hfetch'.
  assert (fst (get_bls_data_from_db code w1')
          = fst (get_bls_data_from_db code w1)) as Hdb.
  { pose proof (find_occupation_code_env job_title0 w1) as [He Hn].
    rewrite F' in He, Hn. simpl in He, Hn.
    by apply get_bls_data_from_db_env. }
  rewrite Hdb in Hfetch'.
  split; [| split].
  - rewrite Hfetch. destruct (fst (get_bls_data_from_db code w1));
      by eexists _, _.
  - unfold get_complete_job_data. rewrite F, Hfetch'.
    destruct (fst (get_bls_data_from_db code w1)); by eexists _, _.
  - intros Hmiss. rewrite Hmiss in Hfetch, Hfetch'. split.
    + eexists _, _. split; [exact Hfetch |]. by repeat split.
    + unfold get_complete_job_data. rewrite F, Hfetch'.
      eexists _, _. split; [reflexivity |]. by repeat split.
Qed.

Lemma unmapped_code_degrades_to_nulls_witness :
  exists r w2,
    get_complete_job_data "Registered Nurse" offline_world = (Ok r, w2) /\
    result_occupation_code r = "29-1141" /\
    result_median_wage r = None /\
    result_employment r = Some 3130600%Z.
Proof.
  destruct (proj2 (proj2 (proj2 unmapped_code_degrades_to_nulls
              "Registered Nurse" offline_world "29-1141" "Registered Nurse"
              "Healthcare Practitioners" offline_world eq_refl eq_refl))
              eq_refl) as [_ (r & w2 & H & Hc & Hm & He & _)].
  exists r, w2. repeat split; assumption.
Defined.

(** ** Double-precision arithmetic *)

Section Float64Facts.
Import Float64.
Local Open Scope Q_scope.

Lemma pow2_pos e : 0 < pow2 e.
Proof. apply Qpower_0_lt. reflexivity. Qed.

Lemma pow2_add a b : pow2 (a + b) == pow2 a * pow2 b.
Proof. apply Qpower_plus. discriminate. Qed.

Lemma pow2_le a b : (a <= b)%Z -> pow2 a <= pow2 b.
Proof. intros H. apply Qpower_le_compat_l; [exact H | discriminate]. Qed.

Lemma pow2_lt_inv a b : pow2 a < pow2 b -> (a < b)%Z.
Proof. intros H. apply (Qpower_lt_compat_l_inv 2); [exact H | reflexivity]. Qed.

Lemma pow2_Z e : (0 <= e)%Z -> pow2 e == inject_Z (2 ^ e).
Proof. intros H. unfold pow2. rewrite Zpower_Qpower by exact H. reflexivity. Qed.

Lemma pow2_cancel e : pow2 (- e) * pow2 e == 1.
Proof. rewrite <- pow2_add. replace (- e + e)%Z with 0%Z by lia. reflexivity. Qed.

Lemma log2_bounds (n : Z) :
  (0 < n)%Z -> pow2 (Z.log2 n) <= inject_Z n /\ inject_Z n < pow2 (Z.log2 n + 1).
Proof.
  intros H. destruct (Z.log2_spec n H) as [L U].
  pose proof (Z.log2_nonneg n) as Hn.
  rewrite !pow2_Z by lia. rewrite <- Zle_Qle, <- Zlt_Qlt.
  replace (Z.log2 n + 1)%Z with (Z.succ (Z.log2 n)) by lia. done.
Qed.

Lemma Qabs_num_den x : Qabs x * inject_Z (Zpos (Qden x)) == inject_Z (Z.abs (Qnum x)).
Proof.
  destruct x as [n d]. unfold Qabs, Qeq, Qmult, inject_Z. simpl. lia.
Qed.

Lemma ilog2_spec x :
  ~ x == 0 -> pow2 (ilog2 x) <= Qabs x /\ Qabs x < pow2 (ilog2 x + 1).
Proof.
  intros Hx.
  assert (0 < Z.abs (Qnum x))%Z as Hn.
  { destruct x as [n d]. unfold Qeq in Hx. simpl in *. lia. }
  destruct (log2_bounds _ Hn) as [Ln Un].
  destruct (log2_bounds (Zpos (Qden x)) eq_refl) as [Ld Ud].
  pose proof (Qabs_num_den x) as E.
  pose proof (Qabs_nonneg x) as Hx0.
  set (a := Z.log2 (Z.abs (Qnum x))) in *.
  set (b := Z.log2 (Zpos (Qden x))) in *.
  assert (Qabs x < pow2 (a - b + 1)) as Hup.
  { apply (Qmult_lt_r _ _ (pow2 b) (pow2_pos b)).
    rewrite <- pow2_add. replace (a - b + 1 + b)%Z with (a + 1)%Z by lia.
    pose proof (pow2_pos b). nra. }
  assert (pow2 (a - b - 1) <= Qabs x) as Hlo.
  { apply (Qmult_le_r _ _ (pow2 (b + 1)) (pow2_pos (b + 1))).
    rewrite <- pow2_add. replace (a - b - 1 + (b + 1))%Z with a by lia.
    pose proof (pow2_pos (b + 1)). nra. }
  unfold ilog2. fold a b.
  destruct (Qle_bool (pow2 (a - b)) (Qabs x)) eqn:C.
  - apply Qle_bool_iff in C. split; assumption.
  - split; [exact Hlo |].
    replace (a - b - 1 + 1)%Z with (a - b)%Z by lia.
    apply Qnot_le_lt. intros H. apply Qle_bool_iff in H. congruence.
Qed.

Lemma round_half_even_bounds x :
  (Qfloor x <= round_half_even x <= Qfloor x + 1)%Z.
Proof.
  unfold round_half_even.
  destruct (Qcompare _ _); [destruct (Z.even _) | |]; lia.
Qed.

Lemma round_half_even_mono x y :
  x <= y -> (round_half_even x <= round_half_even y)%Z.
Proof.
  intros H. pose proof (Qfloor_resp_le _ _ H) as Hf.
  pose proof (round_half_even_bounds x) as Bx.
  pose proof (round_half_even_bounds y) as By.
  destruct (Z.eq_dec (Qfloor x) (Qfloor y)) as [E | N]; [| lia].
  revert Bx By. unfold round_half_even. rewrite <- E. intros Bx By.
  destruct (Qcompare_spec (x - inject_Z (Qfloor x)) (1 # 2)) as [Cx | Cx | Cx];
    destruct (Qcompare_spec (y - inject_Z (Qfloor x)) (1 # 2)) as [Cy | Cy | Cy];
    try (destruct (Z.even (Qfloor x))); try lia; exfalso; lra.
Qed.

Lemma round_half_even_Z z : round_half_even (inject_Z z) = z.
Proof.
  unfold round_half_even. rewrite Qfloor_Z.
  destruct (Qcompare_spec (inject_Z z - inject_Z z) (1 # 2)) as [C | C | C];
    [exfalso; lra | reflexivity | exfalso; lra].
Qed.

Lemma round_nonzero x :
  ~ x == 0 ->
  round x == inject_Z (round_half_even (x * pow2 (- ulp_exponent x)))
             * pow2 (ulp_exponent x).
Proof.
  intros H. unfold round.
  destruct (Qeq_bool x 0) eqn:E; [apply Qeq_bool_iff in E; contradiction |].
  apply Qred_correct.
Qed.

Lemma round_zero x : x == 0 -> round x == 0.
Proof.
  intros H. unfold round. apply Qeq_bool_iff in H. rewrite H. reflexivity.
Qed.

(** Multiples of the unit in the last place of [x] bound [round x] as they
    bound [x]. *)
Lemma round_grid x z :
  ~ x == 0 ->
  (x <= inject_Z z * pow2 (ulp_exponent x) ->
   round x <= inject_Z z * pow2 (ulp_exponent x)) /\
  (inject_Z z * pow2 (ulp_exponent x) <= x ->
   inject_Z z * pow2 (ulp_exponent x) <= round x).
Proof.
  intros Hx. rewrite (round_nonzero x Hx).
  set (e := ulp_exponent x).
  pose proof (pow2_pos e) as Hp. pose proof (pow2_pos (- e)) as Hm.
  pose proof (pow2_cancel e) as Hc.
  split; intros H.
  - apply Qmult_le_r; [exact Hp |]. rewrite <- Zle_Qle.
    apply Z.le_trans with (round_half_even (inject_Z z));
      [| rewrite round_half_even_Z; lia].
    apply round_half_even_mono.
    apply Qle_trans with (inject_Z z * pow2 e * pow2 (- e)).
    + apply Qmult_le_r; assumption.
    + rewrite <- Qmult_assoc, (Qmult_comm (pow2 e)), Hc. lra.
  - apply Qmult_le_r; [exact Hp |]. rewrite <- Zle_Qle.
    apply Z.le_trans with (round_half_even (inject_Z z));
      [rewrite round_half_even_Z; lia |].
    apply round_half_even_mono.
    apply Qle_trans with (inject_Z z * pow2 e * pow2 (- e)).
    + rewrite <- Qmult_assoc, (Qmult_comm (pow2 e)), Hc. lra.
    + apply Qmult_le_r; assumption.
Qed.

Lemma round_nonneg x : 0 <= x -> 0 <= round x.
Proof.
  intros H. destruct (Qeq_dec x 0) as [E | N].
  - rewrite (round_zero x E). lra.
  - destruct (round_grid x 0 N) as [_ L].
    rewrite Qmult_0_l in L. apply L, H.
Qed.

Lemma round_nonpos x : x <= 0 -> round x <= 0.
Proof.
  intros H. destruct (Qeq_dec x 0) as [E | N].
  - rewrite (round_zero x E). lra.
  - destruct (round_grid x 0 N) as [U _].
    rewrite Qmult_0_l in U. apply U, H.
Qed.

Lemma ilog2_mono x y :
  ~ x == 0 -> ~ y == 0 -> Qabs x <= Qabs y -> (ilog2 x <= ilog2 y)%Z.
Proof.
  intros Hx Hy H.
  destruct (ilog2_spec x Hx) as [Lx _]. destruct (ilog2_spec y Hy) as [_ Uy].
  assert (pow2 (ilog2 x) < pow2 (ilog2 y + 1)) as Hlt by lra.
  apply pow2_lt_inv in Hlt. lia.
Qed.

Lemma grid_pow2 k e : (0 <= k)%Z -> inject_Z (2 ^ k) * pow2 e == pow2 (k + e).
Proof. intros H. rewrite pow2_add, (pow2_Z k H). reflexivity. Qed.

Lemma grid_pow2_opp k e :
  (0 <= k)%Z -> inject_Z (- 2 ^ k) * pow2 e == - pow2 (k + e).
Proof.
  intros H. rewrite <- (grid_pow2 k e H), inject_Z_opp. ring.
Qed.

Lemma round_mono_same_exponent x y :
  ~ x == 0 -> ~ y == 0 -> ulp_exponent x = ulp_exponent y ->
  x <= y -> round x <= round y.
Proof.
  intros Hx Hy E H.
  rewrite (round_nonzero x Hx), (round_nonzero y Hy), <- E.
  apply Qmult_le_r; [apply pow2_pos |]. rewrite <- Zle_Qle.
  apply round_half_even_mono. apply Qmult_le_r; [apply pow2_pos | exact H].
Qed.

Lemma round_mono_pos x y : 0 < x -> x <= y -> round x <= round y.
Proof.
  intros Hx H.
  assert (~ x == 0) as Nx by (intros E; rewrite E in Hx; discriminate).
  assert (~ y == 0) as Ny by (intros E; rewrite E in H; lra).
  assert (Qabs x == x) as Ax by (apply Qabs_pos; lra).
  assert (Qabs y == y) as Ay by (apply Qabs_pos; lra).
  assert (ilog2 x <= ilog2 y)%Z as Hl by (apply ilog2_mono; [done | done | lra]).
  destruct (Z.eq_dec (ulp_exponent x) (ulp_exponent y)) as [E | N].
  { by apply round_mono_same_exponent. }
  destruct (ilog2_spec x Nx) as [_ Ux]. destruct (ilog2_spec y Ny) as [Ly _].
  set (t := ilog2 y) in *.
  assert (ulp_exponent y = t - 52 /\ ulp_exponent x < t - 52 /\ ilog2 x + 1 <= t)%Z
    as (Ey & Ex & Hx1) by (unfold ulp_exponent in *; fold t in N |- *; lia).
  apply Qle_trans with (pow2 t).
  - destruct (round_grid x (2 ^ (t - ulp_exponent x)) Nx) as [U _].
    rewrite grid_pow2 in U by lia.
    replace (t - ulp_exponent x + ulp_exponent x)%Z with t in U by lia.
    apply U. pose proof (pow2_le _ _ Hx1). lra.
  - destruct (round_grid y (2 ^ 52) Ny) as [_ L].
    rewrite grid_pow2 in L by lia. rewrite Ey in L.
    replace (52 + (t - 52))%Z with t in L by lia.
    apply L. lra.
Qed.

Lemma round_mono_neg x y : y < 0 -> x <= y -> round x <= round y.
Proof.
  intros Hy H.
  assert (~ y == 0) as Ny by (intros E; rewrite E in Hy; discriminate).
  assert (~ x == 0) as Nx by (intros E; rewrite E in H; lra).
  assert (Qabs x == - x) as Ax by (apply Qabs_neg; lra).
  assert (Qabs y == - y) as Ay by (apply Qabs_neg; lra).
  assert (ilog2 y <= ilog2 x)%Z as Hl by (apply ilog2_mono; [done | done | lra]).
  destruct (Z.eq_dec (ulp_exponent x) (ulp_exponent y)) as [E | N].
  { by apply round_mono_same_exponent. }
  destruct (ilog2_spec x Nx) as [Lx _]. destruct (ilog2_spec y Ny) as [_ Uy].
  set (t := ilog2 x) in *.
  assert (ulp_exponent x = t - 52 /\ ulp_exponent y < t - 52 /\ ilog2 y + 1 <= t)%Z
    as (Ex & Ey & Hy1) by (unfold ulp_exponent in *; fold t in N |- *; lia).
  apply Qle_trans with (- pow2 t).
  - destruct (round_grid x (- 2 ^ 52) Nx) as [U _].
    rewrite grid_pow2_opp in U by lia. rewrite Ex in U.
    replace (52 + (t - 52))%Z with t in U by lia.
    apply U. lra.
  - destruct (round_grid y (- 2 ^ (t - ulp_exponent y)) Ny) as [_ L].
    rewrite grid_pow2_opp in L by lia.
    replace (t - ulp_exponent y + ulp_exponent y)%Z with t in L by lia.
    apply L. pose proof (pow2_le _ _ Hy1). lra.
Qed.

Lemma round_mono x y : x <= y -> round x <= round y.
Proof.
  intros H.
  destruct (Qlt_le_dec 0 x) as [Hx | Hx]; [by apply round_mono_pos |].
  destruct (Qlt_le_dec y 0) as [Hy | Hy]; [by apply round_mono_neg |].
  apply Qle_trans with 0; [by apply round_nonpos | by apply round_nonneg].
Qed.

Lemma to_int_mono x y : x <= y -> (to_int x <= to_int y)%Z.
Proof.
  intros H. unfold to_int.
  destruct (Qle_bool 0 x) eqn:Cx; destruct (Qle_bool 0 y) eqn:Cy.
  - by apply Qfloor_resp_le.
  - apply Qle_bool_iff in Cx.
    assert (~ 0 <= y) as Ny by (rewrite <- Qle_bool_iff; congruence). lra.
  - assert (~ 0 <= x) as Nx by (rewrite <- Qle_bool_iff; congruence).
    apply Qle_bool_iff in Cy.
    apply Z.le_trans with 0%Z.
    + change 0%Z with (Qceiling 0). apply Qceiling_resp_le. lra.
    + change 0%Z with (Qfloor 0). by apply Qfloor_resp_le.
  - by apply Qceiling_resp_le.
Qed.

Lemma round_comp x y : x == y -> round x == round y.
Proof.
  intros E. apply Qle_antisym; apply round_mono; rewrite E; apply Qle_refl.
Qed.

#[local] Instance round_Proper : Proper (Qeq ==> Qeq) round.
Proof. intros x y E. by apply round_comp. Qed.

Lemma to_int_comp x y : x == y -> to_int x = to_int y.
Proof.
  intros E. apply Z.le_antisymm; apply to_int_mono; rewrite E; apply Qle_refl.
Qed.

Lemma to_int_Z z : to_int (inject_Z z) = z.
Proof.
  unfold to_int. destruct (Qle_bool 0 (inject_Z z));
    [apply Qfloor_Z | apply Qceiling_Z].
Qed.

(** Integers of magnitude below [2^53] are doubles. *)
Lemma round_Z z : (Z.abs z < 2 ^ 53)%Z -> round (inject_Z z) == inject_Z z.
Proof.
  intros B. destruct (Z.eq_dec z 0%Z) as [-> | Nz]; [reflexivity |].
  assert (~ inject_Z z == 0) as N.
  { intros E. apply Nz. by apply (inject_Z_injective z 0%Z). }
  set (e := ulp_exponent (inject_Z z)).
  assert (e <= 0)%Z as He.
  { destruct (ilog2_spec _ N) as [L _].
    assert (Qabs (inject_Z z) == inject_Z (Z.abs z)) as A by reflexivity.
    assert (inject_Z (Z.abs z) < pow2 53) as B'.
    { rewrite (pow2_Z 53) by lia. by rewrite <- Zlt_Qlt. }
    assert (pow2 (ilog2 (inject_Z z)) < pow2 53) as Hlt by lra.
    apply pow2_lt_inv in Hlt. unfold e, ulp_exponent. lia. }
  assert (inject_Z (z * 2 ^ (- e)) * pow2 e == inject_Z z) as G.
  { rewrite inject_Z_mult, <- (pow2_Z (- e)) by lia.
    rewrite <- Qmult_assoc, pow2_cancel. ring. }
  destruct (round_grid (inject_Z z) (z * 2 ^ (- e)) N) as [U L].
  fold e in U, L. rewrite G in U, L.
  apply Qle_antisym; [apply U | apply L]; apply Qle_refl.
Qed.

Lemma range_lookup n (i : nat) :
  range n !! i = if decide (i < Z.to_nat n)%nat then Some (Z.of_nat i) else None.
Proof.
  unfold range. rewrite list_lookup_fmap.
  destruct (decide (i < Z.to_nat n)%nat) as [H | H].
  - by rewrite lookup_seq_lt.
  - rewrite lookup_seq_ge by lia. done.
Qed.

Lemma trend_value_mono current projected num_years i j :
  (current < projected)%Z -> (1 < num_years)%Z -> (i <= j)%Z ->
  (trend_value current projected num_years i
   <= trend_value current projected num_years j)%Z.
Proof.
  intros Hcp Hn Hij. unfold trend_value, element.
  apply to_int_mono, round_mono.
  assert (0 <= round (inject_Z (projected - current) / inject_Z (num_years - 1)))
    as Ha.
  { apply round_nonneg. apply Qle_shift_div_l.
    - change 0 with (inject_Z 0). rewrite <- Zlt_Qlt. lia.
    - rewrite Qmult_0_l. change 0 with (inject_Z 0). rewrite <- Zle_Qle. lia. }
  assert (round (inject_Z i) <= round (inject_Z j)) as Hr.
  { apply round_mono. rewrite <- Zle_Qle. exact Hij. }
  apply Qplus_le_r. apply round_mono.
  rewrite !(Qmult_comm (round (_ / _))). by apply Qmult_le_compat_r.
Qed.

Lemma trend_value_exact current projected num_years i :
  (Z.abs current < 2 ^ 52)%Z -> (Z.abs projected < 2 ^ 52)%Z ->
  (1 < num_years <= 2 ^ 53)%Z -> (0 <= i < num_years)%Z ->
  (num_years - 1 | projected - current)%Z ->
  trend_value current projected num_years i
  = (current + i * ((projected - current) / (num_years - 1)))%Z.
Proof.
  intros Bc Bp Bn Bi [k Hk].
  assert ((projected - current) / (num_years - 1) = k)%Z as ->.
  { rewrite Hk. apply Z.div_mul. lia. }
  assert (2 ^ 53 = 2 * 2 ^ 52)%Z as P2 by reflexivity.
  assert (0 < 2 ^ 52)%Z as P1 by reflexivity.
  set (T := (2 ^ 52)%Z) in *.
  assert (Z.abs k < 2 ^ 53 /\ Z.abs (k * i) < 2 ^ 53 /\
          Z.abs (current + k * i) < 2 ^ 53)%Z as (Bk & Bki & Bs).
  { rewrite P2. clearbody T. nia. }
  rewrite P2 in Bn. clearbody T.
  unfold trend_value, element.
  assert (inject_Z (projected - current) / inject_Z (num_years - 1) == inject_Z k)
    as E1.
  { rewrite Hk, inject_Z_mult. apply Qdiv_mult_l.
    intros E. unfold Qeq in E. simpl in E. lia. }
  rewrite <- (to_int_Z (current + i * k)).
  apply to_int_comp.
  rewrite E1, (round_Z k Bk), (round_Z i), (round_Z current) by lia.
  rewrite <- inject_Z_mult, (round_Z _ Bki).
  rewrite <- inject_Z_plus, (round_Z _ Bs).
  replace (i * k)%Z with (k * i)%Z by lia. reflexivity.
Qed.



Lemma pow2_le_inv a b : pow2 a <= pow2 b -> (a <= b)%Z.
Proof. intros H. apply (Qpower_le_compat_l_inv 2); [exact H | reflexivity]. Qed.

(** Rounding does not leave an interval bounded by a power of two. *)
Lemma round_abs_le k x :
  (-1074 <= k)%Z -> Qabs x <= pow2 k -> Qabs (round x) <= pow2 k.
Proof.
  intros Hk H. pose proof (pow2_pos k) as Pk.
  destruct (Qeq_dec x 0) as [E | N].
  { rewrite (round_zero x E). exact (Qlt_le_weak _ _ Pk). }
  destruct (ilog2_spec x N) as [L _].
  assert (ilog2 x <= k)%Z as Hl by (apply pow2_le_inv; lra).
  assert (ulp_exponent x <= k)%Z as He by (unfold ulp_exponent; lia).
  apply Qabs_Qle_condition in H as [H1 H2].
  apply Qabs_Qle_condition. split.
  - destruct (round_grid x (- 2 ^ (k - ulp_exponent x)) N) as [_ Lo].
    rewrite grid_pow2_opp in Lo by lia.
    replace (k - ulp_exponent x + ulp_exponent x)%Z with k in Lo by lia.
    by apply Lo.
  - destruct (round_grid x (2 ^ (k - ulp_exponent x)) N) as [Up _].
    rewrite grid_pow2 in Up by lia.
    replace (k - ulp_exponent x + ulp_exponent x)%Z with k in Up by lia.
    by apply Up.
Qed.

Lemma fits_Ok x : Qabs x < pow2 1024 -> fits x = Ok x.
Proof.
  intros H. unfold fits.
  destruct (Qle_bool (pow2 1024) (Qabs x)) eqn:C; [| done].
  apply Qle_bool_iff in C. lra.
Qed.

Lemma fits_inv x y : fits x = Ok y -> y = x.
Proof. unfold fits. destruct (Qle_bool _ _); [done | congruence]. Qed.

Lemma fits_small k x :
  (k < 1024)%Z -> Qabs x <= pow2 k -> fits x = Ok x.
Proof.
  intros Hk H. apply fits_Ok.
  apply Qle_lt_trans with (pow2 k); [exact H |].
  apply Qpower_lt_compat_l; [exact Hk | reflexivity].
Qed.

Lemma Qabs_inject_Z_le z k :
  (0 <= k)%Z -> (Z.abs z <= 2 ^ k)%Z -> Qabs (inject_Z z) <= pow2 k.
Proof.
  intros Hk H. rewrite (pow2_Z k Hk).
  change (Qabs (inject_Z z)) with (inject_Z (Z.abs z)). by rewrite <- Zle_Qle.
Qed.

Lemma trend_loop_inv current annual_change years trend :
  trend_loop current annual_change years = Ok trend ->
  trend = element current annual_change <$> years.
Proof.
  revert trend. induction years as [|i years IH]; intros trend; simpl.
  - by intros [= <-].
  - unfold of_int, mul, add.
    destruct (fits (round (inject_Z i))) as [i'|] eqn:E1; simpl; [| done].
    destruct (fits (round (annual_change * i'))) as [ch|] eqn:E2; simpl; [| done].
    destruct (fits (round (inject_Z current))) as [c'|] eqn:E3; simpl; [| done].
    destruct (fits (round (c' + ch))) as [v|] eqn:E4; simpl; [| done].
    destruct (trend_loop current annual_change years) as [t|]; simpl; [| done].
    intros [= <-]. rewrite (IH t eq_refl).
    apply fits_inv in E1, E2, E3, E4. by subst.
Qed.

Lemma trend_loop_Ok current annual_change years :
  (Z.abs current <= 2 ^ 62)%Z -> Qabs annual_change <= pow2 63 ->
  Forall (fun i => Z.abs i <= 2 ^ 62)%Z years ->
  trend_loop current annual_change years
  = Ok (element current annual_change <$> years).
Proof.
  intros Bc Ba. induction 1 as [|i years Bi _ IH]; simpl; [done |].
  assert (Qabs (round (inject_Z i)) <= pow2 62) as Ri
    by (apply round_abs_le, Qabs_inject_Z_le; lia).
  assert (Qabs (round (inject_Z current)) <= pow2 62) as Rc
    by (apply round_abs_le, Qabs_inject_Z_le; lia).
  assert (Qabs (round (annual_change * round (inject_Z i))) <= pow2 125) as Rm.
  { apply round_abs_le; [lia |]. rewrite Qabs_Qmult.
    change 125%Z with (63 + 62)%Z. rewrite pow2_add.
    apply Qmult_le_compat_nonneg; split;
      [apply Qabs_nonneg | exact Ba | apply Qabs_nonneg | exact Ri]. }
  assert (Qabs (round (round (inject_Z current)
                       + round (annual_change * round (inject_Z i))))
          <= pow2 126) as Rs.
  { apply round_abs_le; [lia |].
    eapply Qle_trans; [apply Qabs_triangle |].
    assert (pow2 62 + pow2 125 <= pow2 126) as P by (vm_compute; discriminate).
    lra. }
  unfold of_int, mul, add.
  rewrite (fits_small 62 _ ltac:(lia) Ri). simpl.
  rewrite (fits_small 125 _ ltac:(lia) Rm). simpl.
  rewrite (fits_small 62 _ ltac:(lia) Rc). simpl.
  rewrite (fits_small 126 _ ltac:(lia) Rs). simpl.
  rewrite IH. reflexivity.
Qed.

Lemma range_bounded n :
  (n <= 2 ^ 62)%Z -> Forall (fun i => Z.abs i <= 2 ^ 62)%Z (range n).
Proof.
  intros Hn. apply Forall_forall. intros i Hi. unfold range in Hi.
  apply list_elem_of_fmap in Hi as (k & -> & Hk).
  apply elem_of_seq in Hk. lia.
Qed.

Lemma generate_employment_trend_inv current projected num_years trend :
  current <> 0%Z -> projected <> 0%Z -> (1 < num_years)%Z ->
  generate_employment_trend (Some current) (Some projected) num_years = Ok trend ->
  trend = trend_value current projected num_years <$> range num_years.
Proof.
  intros Hc Hp Hn. unfold generate_employment_trend.
  apply Z.eqb_neq in Hc, Hp. rewrite Hc, Hp. simpl.
  apply Z.leb_gt in Hn. rewrite Hn. unfold true_divide.
  destruct (fits _) as [a|] eqn:E; simpl; [| done].
  apply fits_inv in E. subst a. apply trend_loop_inv.
Qed.

Lemma generate_employment_trend_Ok current projected num_years :
  current <> 0%Z -> projected <> 0%Z -> (1 < num_years)%Z ->
  (Z.abs current <= 2 ^ 62)%Z -> (Z.abs projected <= 2 ^ 62)%Z ->
  (num_years <= 2 ^ 62)%Z ->
  generate_employment_trend (Some current) (Some projected) num_years
  = Ok (trend_value current projected num_years <$> range num_years).
Proof.
  intros Hc Hp Hn Bc Bp Bn. unfold generate_employment_trend.
  apply Z.eqb_neq in Hc, Hp. rewrite Hc, Hp. simpl.
  pose proof Hn as Hn'. apply Z.leb_gt in Hn'. rewrite Hn'. unfold true_divide.
  assert (Qabs (round (inject_Z (projected - current)
                       / inject_Z (num_years - 1))) <= pow2 63) as Ba.
  { apply round_abs_le; [lia |].
    assert (0 < inject_Z (num_years - 1)) as Hd
      by (change 0 with (inject_Z 0); rewrite <- Zlt_Qlt; lia).
    assert (1 <= inject_Z (num_years - 1)) as Hd1
      by (change 1 with (inject_Z 1); rewrite <- Zle_Qle; lia).
    assert (Qabs (inject_Z (projected - current)) <= pow2 63) as Bd.
    { apply Qabs_inject_Z_le; [lia |].
      assert (2 ^ 63 = 2 * 2 ^ 62)%Z as -> by reflexivity. lia. }
    unfold Qdiv. rewrite Qabs_Qmult, Qabs_Qinv.
    rewrite (Qabs_pos (inject_Z (num_years - 1))) by lra.
    apply Qle_shift_div_r; [exact Hd |].
    pose proof (Qabs_nonneg (inject_Z (projected - current))).
    pose proof (pow2_pos 63). nra. }
  rewrite (fits_small 63 _ ltac:(lia) Ba). simpl.
  apply trend_loop_Ok; [exact Bc | exact Ba | by apply range_bounded].
Qed.

Lemma trend_lookup current projected num_years (i : nat) :
  (trend_value current projected num_years <$> range num_years) !! i
  = if decide (i < Z.to_nat num_years)%nat
    then Some (trend_value current projected num_years (Z.of_nat i))
    else None.
Proof. rewrite list_lookup_fmap, range_lookup. by case_decide. Qed.

Lemma generate_employment_trend_short current projected num_years :
  (current = 0%Z \/ projected = 0%Z \/ num_years <= 1)%Z ->
  generate_employment_trend (Some current) (Some projected) num_years
  = Ok (if (current =? 0)%Z then [] else [current]).
Proof.
  intros H. unfold generate_employment_trend.
  destruct (current =? 0)%Z eqn:Ec; [done |].
  destruct (projected =? 0)%Z eqn:Ep; [done |].
  destruct (num_years <=? 1)%Z eqn:En; [done |]. lia.
Qed.

Lemma generate_employment_trend_sorted current projected num_years trend
  (i j : nat) (vi vj : Z) :
  (current < projected)%Z -> (i <= j)%nat ->
  generate_employment_trend (Some current) (Some projected) num_years = Ok trend ->
  trend !! i = Some vi -> trend !! j = Some vj -> (vi <= vj)%Z.
Proof.
  intros Hcp Hij.
  destruct (Z.eq_dec current 0%Z) as [Hc | Hc];
    [| destruct (Z.eq_dec projected 0%Z) as [Hp | Hp];
       [| destruct (Z_le_gt_dec num_years 1) as [Hn | Hn]]].
  1-3: rewrite generate_employment_trend_short by lia; intros [= <-];
       destruct (current =? 0)%Z; [done |];
       destruct i, j; simpl; intros; simplify_eq; lia.
  intros G. apply generate_employment_trend_inv in G as ->; [| lia ..].
  rewrite !trend_lookup.
  repeat case_decide; try done. intros [= <-] [= <-].
  apply trend_value_mono; lia.
Qed.

End Float64Facts.

Section Binary64Check.
Import PrimFloat.

(** The rounding of the embedding and the kernel's binary64 arithmetic
    agree on the values behind the examples below. *)
Example round_agrees_with_binary64 :
  Float64.of_binary64 (1 / 49)%float = Some (Float64.round (1 # 49)) /\
  Float64.of_binary64 (1 / 49 * 49)%float
  = Some (Float64.round (Float64.round (1 # 49) * 49)) /\
  Float64.of_binary64 (1 + 3 / 47 * 47)%float
  = Some (Float64.round (1 + Float64.round (Float64.round (3 # 47) * 47))) /\
  Float64.of_binary64 (-30 + 14 / 25 * 25)%float
  = Some (Float64.round (-30 + Float64.round (Float64.round (14 # 25) * 25))) /\
  Float64.of_binary64 (1365500 + 207400 / 10 * 3)%float
  = Some (Float64.round
            (1365500 + Float64.round (Float64.round (207400 # 10) * 3))) /\
  Float64.of_binary64 (9007199254740992 + 1 / 10 * 3)%float
  = Some (Float64.round (9007199254740992
                         + Float64.round (Float64.round (1 # 10) * 3))) /\
  Float64.of_binary64 (9007199254740992 + 3)%float
  = Some (Float64.round 9007199254740995).
Proof. repeat split; vm_compute; reflexivity. Qed.

End Binary64Check.

(** C4, as stated, fails on two counts.  With the current figure present
    and the projected one absent the function returns the one-element trend
    [[current]], not the empty one.  And the elements are computed in double
    precision: from 1 to 4 over 48 years the last element is 3, where
    [current + i * (projected - current) / (n - 1)] is exactly 4. *)
Lemma employment_trend_counterexample :
  generate_employment_trend (Some 100%Z) None 11 = Ok [100%Z] /\
  generate_employment_trend (Some 100%Z) None 11 <> Ok [] /\
  (exists trend,
      generate_employment_trend (Some 1%Z) (Some 4%Z) 48 = Ok trend /\
      trend !! 47%nat = Some 3%Z /\
      trend !! 47%nat <> Some (1 + 47 * (4 - 1) / (48 - 1))%Z).
Proof.
  split; [reflexivity |]. split; [discriminate |].
  eexists. split; [vm_compute; reflexivity |].
  split; [reflexivity | discriminate].
Qed.

(** C4, amended.  [generate_employment_trend] returns the empty trend when
    the current figure is absent (or zero), and the one-element trend
    [[current]] when only the projected figure is absent (or zero) or when
    there is at most one year; its callers take the empty trend whenever
    either figure is absent.  Otherwise the trend it returns has one element
    per year, the [i]-th being [int(current + annual_change * i)] evaluated
    in double precision with [annual_change = (projected - current) /
    (n - 1)], and it does return one for magnitudes up to 2^62; whenever
    [n - 1] divides [projected - current] and the magnitudes stay below 2^52
    the [i]-th element is exactly [current + i * (projected - current) /
    (n - 1)].  A returned trend is non-decreasing whenever [projected >
    current], and for 100, 200 and 11 years it runs from 100 to 200 in steps
    of 10. *)
Theorem employment_trend_rounded_interpolation :
  (forall projected num_years,
      generate_employment_trend None projected num_years = Ok [] /\
      generate_employment_trend (Some 0%Z) projected num_years = Ok []) /\
  (forall current num_years,
      current <> 0%Z ->
      generate_employment_trend (Some current) None num_years = Ok [current] /\
      generate_employment_trend (Some current) (Some 0%Z) num_years
      = Ok [current]) /\
  (forall current projected num_years,
      current <> 0%Z -> (num_years <= 1)%Z ->
      generate_employment_trend (Some current) projected num_years
      = Ok [current]) /\
  (forall current_employment0 projected_employment0,
      truthy current_employment0 = false \/ truthy projected_employment0 = false ->
      trend_employment current_employment0 projected_employment0 = Ok []) /\
  (forall current projected num_years,
      current <> 0%Z -> projected <> 0%Z -> (1 < num_years)%Z ->
      (forall trend,
          generate_employment_trend (Some current) (Some projected) num_years
          = Ok trend ->
          length trend = Z.to_nat num_years /\
          forall i : nat,
            (i < Z.to_nat num_years)%nat ->
            trend !! i
            = Some (trend_value current projected num_years (Z.of_nat i))) /\
      ((Z.abs current <= 2 ^ 62)%Z -> (Z.abs projected <= 2 ^ 62)%Z ->
       (num_years <= 2 ^ 62)%Z ->
       exists trend,
         generate_employment_trend (Some current) (Some projected) num_years
         = Ok trend) /\
      ((Z.abs current < 2 ^ 52)%Z -> (Z.abs projected < 2 ^ 52)%Z ->
       (num_years <= 2 ^ 53)%Z ->
       (num_years - 1 | projected - current)%Z ->
       exists trend,
         generate_employment_trend (Some current) (Some projected) num_years
         = Ok trend /\
         forall i : nat,
           (i < Z.to_nat num_years)%nat ->
           trend !! i
           = Some (current
                   + Z.of_nat i * ((projected - current) / (num_years - 1)))%Z)) /\
  (forall current projected num_years trend (i j : nat) (vi vj : Z),
      (current < projected)%Z -> (i <= j)%nat ->
      generate_employment_trend (Some current) (Some projected) num_years
      = Ok trend ->
      trend !! i = Some vi -> trend !! j = Some vj -> (vi <= vj)%Z) /\
  generate_employment_trend (Some 100%Z) (Some 200%Z) 11
  = Ok [100; 110; 120; 130; 140; 150; 160; 170; 180; 190; 200]%Z.
Proof.
  split; [| split; [| split; [| split; [| split; [| split]]]]].
  - intros projected num_years. split; [done |]. by destruct projected.
  - intros current num_years Hc. apply Z.eqb_neq in Hc.
    unfold generate_employment_trend. rewrite Hc. done.
  - intros current [projected|] num_years Hc Hn.
    + rewrite generate_employment_trend_short by lia.
      apply Z.eqb_neq in Hc. by rewrite Hc.
    + apply Z.eqb_neq in Hc. unfold generate_employment_trend. by rewrite Hc.
  - intros c p [H | H]; unfold trend_employment; rewrite H; [done |].
    by rewrite andb_false_r.
  - intros current projected num_years Hc Hp Hn.
    split; [| split].
    + intros trend G.
      apply generate_employment_trend_inv in G as ->; [| assumption ..].
      split.
      * unfold range. by rewrite !length_fmap, length_seq.
      * intros i Hi. rewrite trend_lookup. by case_decide.
    + intros Bc Bp Bn. eexists.
      by apply generate_employment_trend_Ok.
    + intros Bc Bp Bn Hdiv.
      assert (2 ^ 52 < 2 ^ 62 /\ 2 ^ 53 < 2 ^ 62)%Z as [P1 P2] by done.
      eexists. split; [apply generate_employment_trend_Ok; lia |].
      intros i Hi. rewrite trend_lookup. case_decide; [| done]. f_equal.
      apply trend_value_exact; try assumption; lia.
  - intros current projected num_years trend i j vi vj.
    apply generate_employment_trend_sorted.
  - vm_compute. reflexivity.
Qed.

Lemma employment_trend_rounded_interpolation_witness :
  exists trend,
    generate_employment_trend (Some 1365500%Z) (Some 1572900%Z) 11 = Ok trend /\
    trend !! 3%nat = Some 1427720%Z.
Proof.
  destruct (proj2 (proj2 (proj1 (proj2 (proj2 (proj2 (proj2
              employment_trend_rounded_interpolation))))
              1365500%Z 1572900%Z 11%Z
              ltac:(discriminate) ltac:(discriminate) ltac:(reflexivity)))
              ltac:(reflexivity) ltac:(reflexivity)
              ltac:(intros H; discriminate H)
              ltac:(exists 20740%Z; reflexivity))
    as (trend & G & H).
  exists trend. split; [exact G |].
  apply (H 3%nat). vm_compute. lia.
Defined.

(** * Further properties of the code *)

(** ** Substrings *)

Section Substrings.

Lemma contains_chars_startswith sub s :
  startswith_chars s sub = true -> contains_chars sub s = true.
Proof. destruct s; simpl; intros ->; reflexivity. Qed.

Lemma contains_chars_spec sub s :
  contains_chars sub s = true <-> exists a b, s = a ++ sub ++ b.
Proof.
  split.
  - induction s as [|c s IH]; simpl.
    + rewrite orb_false_r. intros H. apply startswith_chars_spec in H as [k Hk].
      exists [], k. exact Hk.
    + intros H. apply orb_true_iff in H as [H | H].
      * apply startswith_chars_spec in H as [k Hk]. by exists [], k.
      * destruct (IH H) as (a & b & ->). by exists (c :: a), b.
  - intros (a & b & ->). induction a as [|c a IH]; simpl.
    + apply contains_chars_startswith, startswith_chars_spec. by exists b.
    + rewrite IH. apply orb_true_r.
Qed.

Lemma contains_spec sub s :
  contains sub s = true <-> exists a b, s = (a ++ sub ++ b)%string.
Proof.
  unfold contains. rewrite contains_chars_spec. split.
  - intros (a & b & H). exists (str a), (str b). apply chars_inj.
    by rewrite !chars_app, !chars_str.
  - intros (a & b & ->). exists (chars a), (chars b). by rewrite !chars_app.
Qed.

Lemma contains_chars_trans x y z :
  contains_chars x y = true -> contains_chars y z = true ->
  contains_chars x z = true.
Proof.
  rewrite !contains_chars_spec. intros (a & b & ->) (a' & b' & ->).
  exists (a' ++ a), (b ++ b'). by rewrite <- !app_assoc.
Qed.

Lemma contains_chars_refl x : contains_chars x x = true.
Proof. apply contains_chars_spec. exists [], []. by rewrite app_nil_r. Qed.

Lemma contains_chars_nil s : contains_chars [] s = true.
Proof. destruct s; reflexivity. Qed.

Lemma isspace_lower_char c : isspace (lower_char c) = isspace c.
Proof. destruct c as [[] [] [] [] [] [] [] []]; reflexivity. Qed.

Lemma lstrip_chars_lower l :
  lstrip_chars (map lower_char l) = map lower_char (lstrip_chars l).
Proof.
  induction l as [|c l IH]; simpl; [done |].
  rewrite isspace_lower_char. by destruct (isspace c).
Qed.

Lemma strip_chars_lower l :
  strip_chars (map lower_char l) = map lower_char (strip_chars l).
Proof.
  unfold strip_chars, rstrip_chars.
  by rewrite lstrip_chars_lower, <- map_rev, lstrip_chars_lower, map_rev.
Qed.




End Substrings.

(** ** Title normalizer and resolver *)

Section Resolver.


Lemma lower_idem s : lower (lower s) = lower s.
Proof.
  unfold lower. rewrite chars_str. f_equal. apply lowered_fixed, lowered_map.
Qed.

Lemma strip_lower s : strip (lower s) = lower (strip s).
Proof. unfold strip, lower. by rewrite !chars_str, strip_chars_lower. Qed.

Lemma strip_idem s : strip (strip s) = strip s.
Proof. unfold strip. by rewrite chars_str, strip_chars_idem. Qed.


(** The normalized title is a piece of the lower-cased title. *)
Lemma standardize_segment t :
  exists a b, chars (lower t) = a ++ chars (standardize_job_title t) ++ b.
Proof.
  unfold standardize_job_title.
  destruct (strip_chars_segment (chars (lower t))) as (a & b & Hab).
  assert (exists k, chars (strip (lower t))
                    = chars (strip_suffix_loop suffixes (strip (lower t))) ++ k)
    as [k Hk].
  { generalize (strip (lower t)). intros s.
    induction suffixes as [|tok todo IH]; simpl.
    - exists []. by rewrite app_nil_r.
    - destruct (endswith s tok); [| exact IH].
      unfold drop_last, slice_to_minus. rewrite chars_str.
      destruct (String.length tok).
      + by exists (chars s).
      + eexists. symmetry. apply take_drop. }
  unfold strip in Hk at 1. rewrite chars_str in Hk.
  exists a, (k ++ b). rewrite Hab at 1. rewrite Hk. by rewrite <- !app_assoc.
Qed.

End Resolver.



(** X2. Normalization does not see the case of the title nor the
    whitespace around it. *)
Theorem standardize_job_title_ignores_case_and_margin (title : string) :
  standardize_job_title (strip title) = standardize_job_title title /\
  standardize_job_title (lower title) = standardize_job_title title /\
  standardize_job_title (lower (strip title)) = standardize_job_title title.
Proof.
  unfold standardize_job_title.
  rewrite !lower_idem, <- !strip_lower, !strip_idem. done.
Qed.

Section Categories.

Lemma startswith_take (code p : string) :
  startswith code p = true
  <-> take (String.length p) (chars code) = chars p.
Proof.
  unfold startswith. rewrite startswith_chars_spec, length_chars. split.
  - intros [k ->]. by rewrite take_app_length.
  - intros H. exists (drop (length (chars p)) (chars code)).
    rewrite <- H at 1. symmetry. apply take_drop.
Qed.

Lemma get_job_category_loop_lookup items code :
  Forall (fun kv : string * string => String.length (fst kv) = 3) items ->
  get_job_category_loop items code
  = default "General" (dict_get items (str (take 3 (chars code)))).
Proof.
  induction 1 as [|[p cat] items Hp _ IH]; simpl in *; [done |].
  destruct (startswith code p) eqn:S.
  - apply startswith_take in S. rewrite Hp in S.
    rewrite S, str_chars, String.eqb_refl. done.
  - destruct (String.eqb p (str (take 3 (chars code)))) eqn:E; [| exact IH].
    apply String.eqb_eq in E.
    assert (startswith code p = true) as S'.
    { apply startswith_take. by rewrite Hp, E, chars_str. }
    congruence.
Qed.

Lemma dict_get_In {V} (d : dict V) k v :
  dict_get d k = Some v -> In (k, v) d.
Proof.
  induction d as [|[k' v'] d IH]; simpl; [done |].
  destruct (String.eqb k' k) eqn:E.
  - apply String.eqb_eq in E as ->. intros [= ->]. by left.
  - intros H. right. by apply IH.
Qed.

Lemma SOC_TO_CATEGORY_prefixes :
  Forall (fun kv : string * string => String.length (fst kv) = 3) SOC_TO_CATEGORY.
Proof. repeat constructor. Qed.

Lemma SOC_TO_CATEGORY_scored :
  Forall (fun kv : string * string =>
            is_Some (dict_get category_risk_scores (snd kv))) SOC_TO_CATEGORY.
Proof. repeat (constructor; [by eexists |]). constructor. Qed.

End Categories.

(** X3. The category of a code is decided by its first three characters:
    it is the entry of [SOC_TO_CATEGORY] under that prefix, and ["General"]
    when there is none, in particular for every code shorter than three
    characters. *)
Theorem get_job_category_by_prefix (occupation_code0 : string) :
  get_job_category occupation_code0
  = default "General"
      (dict_get SOC_TO_CATEGORY (str (take 3 (chars occupation_code0)))) /\
  (String.length occupation_code0 < 3 ->
   get_job_category occupation_code0 = "General").
Proof.
  assert (get_job_category occupation_code0
          = default "General"
              (dict_get SOC_TO_CATEGORY (str (take 3 (chars occupation_code0)))))
    as H by apply get_job_category_loop_lookup, SOC_TO_CATEGORY_prefixes.
  split; [exact H |]. intros Hlen. rewrite H.
  destruct (dict_get SOC_TO_CATEGORY _) as [cat|] eqn:E; [| done].
  apply dict_get_In in E.
  pose proof (proj1 (List.Forall_forall _ _) SOC_TO_CATEGORY_prefixes _ E) as Hk.
  simpl in Hk. rewrite length_chars, chars_str, length_take in Hk.
  rewrite length_chars in Hlen. lia.
Qed.

Lemma get_job_category_by_prefix_witness :
  get_job_category "7" = "General".
Proof. apply (proj2 (get_job_category_by_prefix "7")). simpl. lia. Defined.

(** X4. Whatever the code, its category is ["General"] or a category that
    has its own entry in the risk-score table of [calculate_ai_risk]: the
    default scores are reached through the resolver only for ["General"]. *)
Theorem get_job_category_has_risk_scores (occupation_code0 job_title0 : string) :
  get_job_category occupation_code0 = "General" \/
  exists scores,
    dict_get category_risk_scores (get_job_category occupation_code0)
    = Some scores /\
    year_1_risk (calculate_ai_risk job_title0 (get_job_category occupation_code0))
    = fst scores /\
    year_5_risk (calculate_ai_risk job_title0 (get_job_category occupation_code0))
    = snd scores.
Proof.
  assert (get_job_category occupation_code0
          = default "General"
              (dict_get SOC_TO_CATEGORY (str (take 3 (chars occupation_code0)))))
    as -> by apply get_job_category_loop_lookup, SOC_TO_CATEGORY_prefixes.
  destruct (dict_get SOC_TO_CATEGORY _) as [cat|] eqn:E; [| by left].
  right. apply dict_get_In in E.
  destruct (proj1 (List.Forall_forall _ _) SOC_TO_CATEGORY_scored _ E)
    as [scores Hs].
  cbn [snd] in Hs. change (default "General" (Some cat)) with cat.
  exists scores. split; [exact Hs |].
  unfold calculate_ai_risk. rewrite Hs. by destruct scores.
Qed.

Section ResolverTable.

Lemma dict_get_app {V} (d1 d2 : dict V) k :
  dict_get (d1 ++ d2) k
  = match dict_get d1 k with Some v => Some v | None => dict_get d2 k end.
Proof.
  induction d1 as [|[k' v'] d1 IH]; simpl; [done |].
  by destruct (String.eqb k' k).
Qed.

Lemma dict_set_fresh {V} (d : dict V) k v :
  (forall v', ~ In (k, v') d) -> dict_set d k v = d ++ [(k, v)].
Proof.
  induction d as [|[k' v'] d IH]; simpl; intros H; [done |].
  destruct (String.eqb k' k) eqn:E.
  - apply String.eqb_eq in E as ->. destruct (H v'). by left.
  - f_equal. apply IH. intros v'' Hin. apply (H v''). by right.
Qed.

Lemma partial_match_None d s :
  partial_match d s = None ->
  forall key code, In (key, code) d ->
                   contains key s = false /\ contains s key = false.
Proof.
  induction d as [|[k c] d IH]; simpl; [done |].
  destruct (contains k s || contains s k) eqn:C; [done |].
  apply orb_false_iff in C. intros H key code [[= <- <-] | Hin]; [done |].
  by apply (IH H key code).
Qed.

Lemma partial_match_app d1 d2 s :
  partial_match (d1 ++ d2) s
  = match partial_match d1 s with
    | Some c => Some c
    | None => partial_match d2 s
    end.
Proof.
  induction d1 as [|[k c] d1 IH]; simpl; [done |].
  by destruct (contains k s || contains s k).
Qed.

Lemma soc_codes_standardized :
  Forall (fun item : string * string =>
            standardize_job_title (snd item) = lower (snd item)) soc_codes.
Proof. repeat (constructor; [vm_compute; reflexivity |]). constructor. Qed.

(** What the fallback finds contains the normalized title. *)
Lemma search_occupations_contains job_title0 best :
  In best (search_occupations job_title0) ->
  In best soc_codes /\
  contains (standardize_job_title job_title0)
           (standardize_job_title (snd best)) = true.
Proof.
  unfold search_occupations. intros H. apply filter_In in H as [Hin Hc].
  split; [exact Hin |].
  rewrite (proj1 (List.Forall_forall _ _) soc_codes_standardized _ Hin).
  unfold contains in *.
  apply contains_chars_trans with (chars (lower job_title0)); [| exact Hc].
  apply contains_chars_spec, standardize_segment.
Qed.

(** The fallback branch of [find_occupation_code] writes a key the table
    does not have. *)
Lemma find_occupation_code_fallback_fresh table job_title0 best v :
  partial_match table (standardize_job_title job_title0) = None ->
  In best (search_occupations job_title0) ->
  ~ In (standardize_job_title (snd best), v) table.
Proof.
  intros P Hb Hin.
  destruct (partial_match_None _ _ P _ _ Hin) as [_ C].
  apply search_occupations_contains in Hb as [_ C']. congruence.
Qed.

Lemma find_occupation_code_table (job_title0 : string) (w : World) :
  let w' := snd (find_occupation_code job_title0 w) in
  (w' = w \/
   exists key code,
     w' = set_JOB_TITLE_TO_SOC w (JOB_TITLE_TO_SOC w ++ [(key, code)]) /\
     dict_get (JOB_TITLE_TO_SOC w) key = None /\
     fst (fst (fst (find_occupation_code job_title0 w))) = code) /\
  forall k v,
    dict_get (JOB_TITLE_TO_SOC w) k = Some v ->
    dict_get (JOB_TITLE_TO_SOC w') k = Some v.
Proof.
  intros w'.
  assert (w' = w \/
          exists key code,
            w' = set_JOB_TITLE_TO_SOC w (JOB_TITLE_TO_SOC w ++ [(key, code)]) /\
            dict_get (JOB_TITLE_TO_SOC w) key = None /\
            fst (fst (fst (find_occupation_code job_title0 w))) = code) as H.
  { unfold w', find_occupation_code.
    destruct (dict_get _ _) eqn:G; [by left |].
    destruct (partial_match _ _) eqn:P; [by left |].
    destruct (search_occupations job_title0) as [|best others] eqn:S;
      [by left |].
    right. exists (standardize_job_title (snd best)), (fst best).
    assert (forall v, ~ In (standardize_job_title (snd best), v)
                        (JOB_TITLE_TO_SOC w)) as Hfresh.
    { intros v. apply find_occupation_code_fallback_fresh with job_title0;
        [exact P | rewrite S; by left]. }
    simpl. rewrite (dict_set_fresh _ _ _ Hfresh).
    split; [done |]. split.
    - destruct (dict_get (JOB_TITLE_TO_SOC w) (standardize_job_title best.2))
        eqn:E; [| done].
      apply dict_get_In in E. by destruct (Hfresh _ E).
    - done. }
  split; [exact H |].
  intros k v Hk. destruct H as [-> | (key & code & -> & _ & _)]; [done |].
  simpl. by rewrite dict_get_app, Hk.
Qed.

(** Once a title has been resolved, every world with the table the
    resolution left resolves it to the same code and category, and is left
    as it is. *)
Lemma find_occupation_code_resolved
  (job_title0 : string) (w w1 w' : World) (code title0 category : string) :
  find_occupation_code job_title0 w = ((code, title0, category), w1) ->
  JOB_TITLE_TO_SOC w' = JOB_TITLE_TO_SOC w1 ->
  find_occupation_code job_title0 w' = ((code, job_title0, category), w').
Proof.
  unfold find_occupation_code.
  destruct (dict_get (JOB_TITLE_TO_SOC w) _) as [c|] eqn:G.
  { intros [= <- <- <- <-] ->. by rewrite G. }
  destruct (partial_match (JOB_TITLE_TO_SOC w) _) as [c|] eqn:P.
  { intros [= <- <- <- <-] ->. by rewrite G, P. }
  destruct (search_occupations job_title0) as [|best others] eqn:S.
  { intros [= <- <- <- <-] ->. by rewrite G, P. }
  intros [= <- <- <- <-] ->.
  assert (In best (search_occupations job_title0)) as Hb
    by (rewrite S; by left).
  assert (forall v, ~ In (standardize_job_title (snd best), v)
                      (JOB_TITLE_TO_SOC w)) as Hfresh.
  { intros v. by apply find_occupation_code_fallback_fresh with job_title0. }
  apply search_occupations_contains in Hb as [_ Hc].
  cbn [JOB_TITLE_TO_SOC set_JOB_TITLE_TO_SOC].
  rewrite (dict_set_fresh _ _ _ Hfresh), dict_get_app, G, partial_match_app, P.
  simpl. destruct (String.eqb _ _); [done |].
  by rewrite Hc, orb_true_r.
Qed.

Lemma find_occupation_code_twice
  (job_title0 : string) (w w1 : World) (code title0 category : string) :
  find_occupation_code job_title0 w = ((code, title0, category), w1) ->
  find_occupation_code job_title0 w1 = ((code, job_title0, category), w1).
Proof. intros H. by apply find_occupation_code_resolved with w w1 title0. Qed.

End ResolverTable.

(** X5. A title that normalizes to the empty string (the empty title, or
    one made of whitespace only) is not rejected: the partial match succeeds
    on the first entry of the table, whose code is returned. *)
Theorem find_occupation_code_empty_title
  (job_title0 : string) (w : World) (key code : string) (rest : dict string) :
  standardize_job_title job_title0 = "" ->
  JOB_TITLE_TO_SOC w = (key, code) :: rest ->
  dict_get (JOB_TITLE_TO_SOC w) "" = None ->
  find_occupation_code job_title0 w
  = ((code, job_title0, get_job_category code), w).
Proof.
  intros Hs Ht Hg. unfold find_occupation_code. rewrite Hs, Hg, Ht. simpl.
  assert (contains "" key = true) as ->.
  { unfold contains. apply contains_chars_nil. }
  by rewrite orb_true_r.
Qed.

Lemma find_occupation_code_empty_title_witness :
  find_occupation_code "   " offline_world
  = (("15-1252", "   ", "Computer and Mathematical"), offline_world).
Proof.
  apply (find_occupation_code_empty_title "   " offline_world
           "software developer" "15-1252" (tail JOB_TITLE_TO_SOC_initial));
    reflexivity.
Defined.

(** X6. [find_occupation_code] only ever appends to the table: afterwards
    the table is the one before, or the one before followed by one entry
    whose key was not in it; nothing else in the world changes, and every
    entry that was there is still there. *)
Theorem find_occupation_code_appends (job_title0 : string) (w : World) :
  let w' := snd (find_occupation_code job_title0 w) in
  (w' = w \/
   exists key code,
     w' = set_JOB_TITLE_TO_SOC w (JOB_TITLE_TO_SOC w ++ [(key, code)]) /\
     dict_get (JOB_TITLE_TO_SOC w) key = None /\
     fst (fst (fst (find_occupation_code job_title0 w))) = code) /\
  forall k v,
    dict_get (JOB_TITLE_TO_SOC w) k = Some v ->
    dict_get (JOB_TITLE_TO_SOC w') k = Some v.
Proof. exact (find_occupation_code_table job_title0 w). Qed.

Lemma find_occupation_code_appends_witness :
  dict_get
    (JOB_TITLE_TO_SOC (snd (find_occupation_code "Data Entry Keyers" offline_world)))
    "registered nurse"
  = Some "29-1141".
Proof.
  apply (proj2 (find_occupation_code_appends "Data Entry Keyers" offline_world)).
  reflexivity.
Defined.

(** X7. Resolving a title a second time returns the code and category of
    the first time together with the raw title, and leaves the table as the
    first resolution left it. *)
Theorem find_occupation_code_again
  (job_title0 : string) (w w1 : World) (code title0 category : string) :
  find_occupation_code job_title0 w = ((code, title0, category), w1) ->
  find_occupation_code job_title0 w1 = ((code, job_title0, category), w1).
Proof. apply find_occupation_code_twice. Qed.

Lemma find_occupation_code_again_witness :
  let w1 := snd (find_occupation_code "pharmacists" offline_world) in
  find_occupation_code "pharmacists" w1
  = (("29-1051", "pharmacists", "Healthcare Practitioners"), w1).
Proof.
  intros w1.
  apply (find_occupation_code_again "pharmacists" offline_world w1
           "29-1051" "Pharmacists" "Healthcare Practitioners").
  vm_compute. reflexivity.
Defined.

(** ** What every operation preserves *)

Section Frame.

Lemma frame_refl w : frame w w.
Proof. unfold frame, table_extends. auto. Qed.

Lemma frame_trans w1 w2 w3 : frame w1 w2 -> frame w2 w3 -> frame w1 w3.
Proof.
  intros (K1 & T1 & O1) (K2 & T2 & O2). split; [congruence |].
  split; [intros k v H; by apply T2, T1 |].
  intros Hk. destruct (O1 Hk) as [P1 C1].
  assert (api_key_of w2 = None) as Hk2 by (unfold api_key_of in *; by rewrite K1).
  destruct (O2 Hk2) as [P2 C2]. split; congruence.
Qed.

Lemma get_bls_data_frame series_ids start_year end_year w :
  frame w (snd (get_bls_data series_ids start_year end_year w)).
Proof.
  unfold get_bls_data.
  destruct (api_key_of w) as [api_key|] eqn:K.
  - destruct (_api_cache w !! _); [apply frame_refl |].
    destruct (upstream w _ _); (split; [done |]);
      (split; [by intros k v H |]); intros Hk; congruence.
  - destruct series_ids; apply frame_refl.
Qed.

Lemma get_occupation_data_frame occ_code w :
  frame w (snd (get_occupation_data occ_code w)).
Proof.
  unfold get_occupation_data.
  destruct (dict_get series_mapping occ_code) as [sid|]; [| apply frame_refl].
  pose proof (get_bls_data_frame [sid] (pretty (current_year w - 5)%Z)
                (pretty (current_year w)) w) as H.
  by destruct (get_bls_data _ _ _ w).
Qed.

Lemma find_occupation_code_frame job_title0 w :
  frame w (snd (find_occupation_code job_title0 w)).
Proof.
  destruct (find_occupation_code_table job_title0 w) as [H T].
  split; [| split; [exact T |]].
  - destruct H as [-> | (k & c & -> & _)]; done.
  - intros _. destruct H as [-> | (k & c & -> & _)]; done.
Qed.

Lemma save_bls_data_to_db_frame data w :
  frame w (snd (save_bls_data_to_db data w)).
Proof.
  unfold save_bls_data_to_db.
  destruct (engine w) as [db|]; [| apply frame_refl].
  destruct (reachable db); simpl; [| apply frame_refl].
  split; [done |]. split; [by intros k v H | done].
Qed.

Lemma fetch_bls_data_frame job_title0 w :
  frame w (snd (fetch_bls_data job_title0 w)).
Proof.
  unfold fetch_bls_data.
  pose proof (find_occupation_code_frame job_title0 w) as H1.
  destruct (find_occupation_code job_title0 w) as [[[code std] cat] w1].
  pose proof (get_bls_data_from_db_world code w1) as H2.
  destruct (get_bls_data_from_db code w1) as [db_data w2].
  simpl in H1, H2. subst w2.
  destruct db_data; [exact H1 |].
  pose proof (get_occupation_data_frame code w1) as H3.
  destruct (get_occupation_data code w1) as [[occ|e] w3]; simpl in H3.
  - match goal with
    | |- context [save_bls_data_to_db ?d w3] =>
        pose proof (save_bls_data_to_db_frame d w3) as H4;
        destruct (save_bls_data_to_db d w3) as [ok w4]
    end.
    simpl in *. eauto using frame_trans.
  - simpl. eauto using frame_trans.
Qed.

Lemma get_complete_job_data_frame job_title0 w :
  frame w (snd (get_complete_job_data job_title0 w)).
Proof.
  unfold get_complete_job_data.
  pose proof (find_occupation_code_frame job_title0 w) as H1.
  destruct (find_occupation_code job_title0 w) as [[[code std] cat] w1].
  pose proof (fetch_bls_data_frame job_title0 w1) as H2.
  destruct (fetch_bls_data job_title0 w1) as [[d|e] w2];
    simpl in *; eauto using frame_trans.
Qed.

Lemma run_frame w op : frame w (run w op).
Proof.
  destruct op; simpl.
  - apply get_bls_data_frame.
  - apply get_occupation_data_frame.
  - apply find_occupation_code_frame.
  - rewrite get_bls_data_from_db_world. apply frame_refl.
  - apply save_bls_data_to_db_frame.
  - apply fetch_bls_data_frame.
  - apply get_complete_job_data_frame.
  - split; [done |]. split; [by intros k v H | done].
Qed.

Lemma run_all_frame ops : forall w, frame w (run_all w ops).
Proof.
  induction ops as [|op ops IH]; intros w; simpl.
  - apply frame_refl.
  - eapply frame_trans; [apply run_frame | apply IH].
Qed.

End Frame.

(** X8. Over the life of the process no alias is lost or changed: an entry
    of the table is still there, with the same code, after any sequence of
    the operations of [Operation]. *)
Theorem aliases_are_never_lost
  (w : World) (ops : list Operation) (key code : string) :
  dict_get (JOB_TITLE_TO_SOC w) key = Some code ->
  dict_get (JOB_TITLE_TO_SOC (run_all w ops)) key = Some code.
Proof. intros H. by apply (run_all_frame ops w). Qed.

Lemma aliases_are_never_lost_witness :
  dict_get
    (JOB_TITLE_TO_SOC
       (run_all offline_world
          [Call_get_complete_job_data "pharmacists";
           Call_find_occupation_code "Data Entry Keyers";
           Clock_advances 1]))
    "registered nurse"
  = Some "29-1141".
Proof. apply aliases_are_never_lost. reflexivity. Defined.

(** X9. Without a credential the process never touches the network: after
    any sequence of the operations of [Operation] no request has been posted
    and the response cache is as it was. *)
Theorem offline_never_posts (w : World) (ops : list Operation) :
  api_key_of w = None ->
  posted (run_all w ops) = posted w /\
  _api_cache (run_all w ops) = _api_cache w.
Proof. intros H. by apply (run_all_frame ops w). Qed.

Lemma offline_never_posts_witness :
  posted (run_all offline_world [Call_get_complete_job_data "software developer";
                                 Call_get_bls_data ["X"] "2020" "2021"]) = [] /\
  _api_cache (run_all offline_world
                [Call_get_complete_job_data "software developer";
                 Call_get_bls_data ["X"] "2020" "2021"]) = ∅.
Proof. apply (offline_never_posts offline_world). reflexivity. Defined.

(** ** Connector *)

Section Connector.

Lemma compare_lt_trans s1 : forall s2 s3,
  String.compare s1 s2 = Lt -> String.compare s2 s3 = Lt ->
  String.compare s1 s3 = Lt.
Proof.
  induction s1 as [|c1 s1 IH]; intros [|c2 s2] [|c3 s3]; simpl; try done.
  unfold Ascii.compare.
  destruct (N.compare_spec (N_of_ascii c1) (N_of_ascii c2)) as [E12|L12|G12];
    [| | done];
    (destruct (N.compare_spec (N_of_ascii c2) (N_of_ascii c3)) as [E23|L23|G23];
     [| | done]); intros H1 H2.
  - rewrite E12, E23, N.compare_refl. by apply IH with s2.
  - rewrite E12. by apply N.compare_lt_iff in L23 as ->.
  - rewrite <- E23. by apply N.compare_lt_iff in L12 as ->.
  - assert (N_of_ascii c1 < N_of_ascii c3)%N as L by lia.
    by apply N.compare_lt_iff in L as ->.
Qed.

Lemma leb_trans s1 s2 s3 :
  String.leb s1 s2 = true -> String.leb s2 s3 = true -> String.leb s1 s3 = true.
Proof.
  unfold String.leb.
  destruct (String.compare s1 s2) eqn:E12; [| | done];
    (destruct (String.compare s2 s3) eqn:E23; [| | done]); intros _ _.
  - apply String.compare_eq_iff in E12 as ->. by rewrite E23.
  - apply String.compare_eq_iff in E12 as ->. by rewrite E23.
  - apply String.compare_eq_iff in E23 as <-. by rewrite E12.
  - by rewrite (compare_lt_trans _ _ _ E12 E23).
Qed.

Lemma insert_sorted_perm x l : insert_sorted x l ≡ₚ x :: l.
Proof.
  induction l as [|y l IH]; simpl; [done |].
  destruct (String.leb x y); [done |].
  rewrite IH. apply Permutation_swap.
Qed.

Lemma sorted_perm l : sorted l ≡ₚ l.
Proof.
  induction l as [|x l IH]; simpl; [done |].
  by rewrite insert_sorted_perm, IH.
Qed.

Lemma insert_sorted_sorted x l :
  StronglySorted (fun a b => String.leb a b = true) l ->
  StronglySorted (fun a b => String.leb a b = true) (insert_sorted x l).
Proof.
  induction 1 as [|y l Hl IH Hy]; simpl.
  - repeat constructor.
  - destruct (String.leb x y) eqn:E.
    + constructor; [by constructor |].
      constructor; [done |].
      eapply Forall_impl; [exact Hy |]. intros z Hz. by apply leb_trans with y.
    + constructor; [exact IH |].
      rewrite insert_sorted_perm. constructor; [| exact Hy].
      destruct (String.leb_total x y) as [H | H]; [congruence | done].
Qed.

Lemma sorted_sorted l :
  StronglySorted (fun a b => String.leb a b = true) (sorted l).
Proof.
  induction l as [|x l IH]; simpl; [constructor |].
  by apply insert_sorted_sorted.
Qed.

Lemma sorted_permutation l l' : l ≡ₚ l' -> sorted l = sorted l'.
Proof.
  intros H.
  apply (StronglySorted_unique_strong (fun a b => String.leb a b = true)).
  - intros x1 x2 _ _. apply String.leb_antisym.
  - apply sorted_sorted.
  - apply sorted_sorted.
  - by rewrite !sorted_perm.
Qed.

End Connector.

(** X10. A request that fails in transport is reported as an error
    dictionary carrying the message; it is not cached, so the next identical
    call posts the request again. *)
Theorem failed_request_is_retried
  (w : World) (api_key : string) (series_ids : list string)
  (start_year end_year message : string) :
  let request := mkRequest series_ids start_year end_year api_key in
  let w1 := snd (get_bls_data series_ids start_year end_year w) in
  api_key_of w = Some api_key ->
  _api_cache w !! cache_key series_ids start_year end_year = None ->
  upstream w (length (posted w)) request = RequestException message ->
  fst (get_bls_data series_ids start_year end_year w)
  = Ok (JDict [("status", JStr "error"); ("message", JStr message)]) /\
  _api_cache w1 = _api_cache w /\
  posted w1 = posted w ++ [request] /\
  posted (snd (get_bls_data series_ids start_year end_year w1))
  = posted w ++ [request; request].
Proof.
  intros request w1 K C U.
  assert (get_bls_data series_ids start_year end_year w
          = (Ok (JDict [("status", JStr "error"); ("message", JStr message)]),
             set_posted w (posted w ++ [request]))) as E.
  { unfold get_bls_data. rewrite K, C. fold request. by rewrite U. }
  subst w1. rewrite E. simpl.
  split; [done |]. split; [done |]. split; [done |].
  unfold get_bls_data.
  change (api_key_of (set_posted w (posted w ++ [request])))
    with (api_key_of w).
  rewrite K. simpl. rewrite C. fold request.
  destruct (upstream w (length (posted w ++ [request])) request); simpl;
    by rewrite <- app_assoc.
Qed.

Lemma failed_request_is_retried_witness :
  posted (snd (get_bls_data ["S1"] "2020" "2021"
                 (snd (get_bls_data ["S1"] "2020" "2021"
                         (connected_world (RequestException "timeout"))))))
  = [mkRequest ["S1"] "2020" "2021" "key"; mkRequest ["S1"] "2020" "2021" "key"].
Proof.
  apply (failed_request_is_retried (connected_world (RequestException "timeout"))
           "key" ["S1"] "2020" "2021" "timeout"); reflexivity.
Defined.

(** X11. The response cache does not distinguish the order of the series
    ids: a response cached for a list of ids is served, without a request,
    for every permutation of the list. *)
Theorem get_bls_data_ignores_series_order
  (w : World) (api_key : string) (series_ids series_ids' : list string)
  (start_year end_year : string) (data : json) :
  api_key_of w = Some api_key ->
  series_ids ≡ₚ series_ids' ->
  _api_cache w !! cache_key series_ids start_year end_year = Some data ->
  get_bls_data series_ids' start_year end_year w = (Ok data, w).
Proof.
  intros K P C. apply get_bls_data_hit with api_key series_ids; [done | done |].
  symmetry. by apply sorted_permutation.
Qed.

Lemma get_bls_data_ignores_series_order_witness :
  let w := snd (get_bls_data ["B"; "A"; "C"] "2020" "2021"
                  (connected_world (Response (JStr "reply")))) in
  get_bls_data ["C"; "B"; "A"] "2020" "2021" w = (Ok (JStr "reply"), w).
Proof.
  intros w.
  apply (get_bls_data_ignores_series_order w "key" ["B"; "A"; "C"]
           ["C"; "B"; "A"] "2020" "2021" (JStr "reply")).
  - reflexivity.
  - change ["C"; "B"; "A"] with (reverse ["A"; "B"; "C"]).
    rewrite reverse_Permutation. apply Permutation_swap.
  - reflexivity.
Defined.

Section Connectivity.

Lemma check_api_connectivity_world w :
  snd (check_api_connectivity w)
  = snd (get_bls_data ["LAUCN040010000000005"] "2020" "2020" w).
Proof.
  unfold check_api_connectivity.
  destruct (get_bls_data _ _ _ w) as [[d|e] w1]; simpl; [| done].
  by destruct (as_dict d).
Qed.

(** A positive answer is read off a response that is in the cache when the
    check returns. *)
Lemma check_api_connectivity_true w :
  fst (check_api_connectivity w) = true ->
  exists api_key fields,
    api_key_of w = Some api_key /\
    _api_cache (snd (check_api_connectivity w))
      !! cache_key ["LAUCN040010000000005"] "2020" "2020"
    = Some (JDict fields) /\
    is_str (get fields "status") "REQUEST_SUCCEEDED" = true.
Proof.
  rewrite check_api_connectivity_world.
  unfold check_api_connectivity, get_bls_data.
  destruct (api_key_of w) as [api_key|]; [| done].
  destruct (_api_cache w !! _) as [cached|] eqn:C.
  - simpl. destruct cached as [| | | | |fields]; simpl; try done.
    intros H. by exists api_key, fields.
  - destruct (upstream w _ _) as [data|e]; simpl; [| done].
    destruct data as [| | | | |fields]; simpl; try done.
    intros H. exists api_key, fields. by rewrite lookup_insert_eq.
Qed.

Lemma lower_app a b : lower (a ++ b) = (lower a ++ lower b)%string.
Proof.
  unfold lower. apply chars_inj.
  by rewrite chars_str, !chars_app, !chars_str, map_app.
Qed.

Lemma contains_lower sub s :
  contains sub s = true -> contains (lower sub) (lower s) = true.
Proof.
  rewrite !contains_spec. intros (a & b & ->).
  exists (lower a), (lower b). by rewrite !lower_app.
Qed.

Lemma contains_trans x y z :
  contains x y = true -> contains y z = true -> contains x z = true.
Proof. apply contains_chars_trans. Qed.

Lemma filter_sublist_impl {A} (P Q : A -> bool) l :
  (forall x, P x = true -> Q x = true) ->
  sublist (List.filter P l) (List.filter Q l).
Proof.
  intros H. induction l as [|x l IH]; simpl; [constructor |].
  destruct (P x) eqn:E.
  - rewrite (H x E). by constructor.
  - destruct (Q x); [by constructor | done].
Qed.

End Connectivity.

(** X12. Without a credential the connectivity check answers no, and
    changes nothing, although the request it makes does return data then:
    the sample response, whose status is not the one that is looked for. *)
Theorem check_api_connectivity_offline (w : World) :
  api_key_of w = None ->
  check_api_connectivity w = (false, w) /\
  get_bls_data ["LAUCN040010000000005"] "2020" "2020" w
  = (Ok (sample_response "LAUCN040010000000005"), w).
Proof.
  intros K. unfold check_api_connectivity, get_bls_data. by rewrite K.
Qed.

Lemma check_api_connectivity_offline_witness :
  check_api_connectivity offline_world = (false, offline_world) /\
  get_bls_data ["LAUCN040010000000005"] "2020" "2020" offline_world
  = (Ok (sample_response "LAUCN040010000000005"), offline_world).
Proof. apply check_api_connectivity_offline. reflexivity. Defined.

(** X13. Once the connectivity check has answered yes it answers yes for
    the rest of the process, whatever happens in between and whatever the
    network does: the answer comes from the response cache and no request
    is posted for it. *)
Theorem check_api_connectivity_sticky (w : World) (ops : list Operation) :
  fst (check_api_connectivity w) = true ->
  let w2 := run_all (snd (check_api_connectivity w)) ops in
  check_api_connectivity w2 = (true, w2).
Proof.
  intros H w2.
  destruct (check_api_connectivity_true w H) as (api_key & fields & K & C & S).
  destruct (run_all_extends ops (snd (check_api_connectivity w))) as [K2 C2].
  fold w2 in K2, C2.
  assert (api_key_of w2 = Some api_key) as K'.
  { unfold api_key_of in *. rewrite K2.
    rewrite check_api_connectivity_world.
    by destruct (get_bls_data_extends ["LAUCN040010000000005"] "2020" "2020" w)
      as [-> _]. }
  unfold check_api_connectivity.
  rewrite (get_bls_data_hit w2 api_key ["LAUCN040010000000005"]
             ["LAUCN040010000000005"] "2020" "2020" (JDict fields) K'
             (C2 _ _ C) eq_refl).
  simpl. by rewrite S.
Qed.

Lemma check_api_connectivity_sticky_witness :
  let w := connected_world
             (Response (JDict [("status", JStr "REQUEST_SUCCEEDED")])) in
  let w2 := run_all (snd (check_api_connectivity w))
              [Call_find_occupation_code "nurse"; Clock_advances 5] in
  check_api_connectivity w2 = (true, w2).
Proof.
  intros w.
  apply (check_api_connectivity_sticky w
           [Call_find_occupation_code "nurse"; Clock_advances 5]).
  reflexivity.
Defined.



(** X16. The occupation search is a substring search without regard to
    case: a query that contains another one finds a sub-list of what the
    other one finds, in the same order, and the case of a query does not
    matter. *)
Theorem search_occupations_refines (query query' : string) :
  contains query query' = true ->
  sublist (search_occupations query') (search_occupations query) /\
  search_occupations (lower query) = search_occupations query.
Proof.
  intros H. split.
  - unfold search_occupations. apply filter_sublist_impl. intros item Hi.
    apply contains_trans with (lower query'); [| exact Hi].
    by apply contains_lower.
  - unfold search_occupations. by rewrite lower_idem.
Qed.

Lemma search_occupations_refines_witness :
  sublist (search_occupations "Managers") (search_occupations "Manage") /\
  search_occupations (lower "Manage") = search_occupations "Manage".
Proof. apply search_occupations_refines. reflexivity. Defined.

(** ** Risk scorers *)

Section Scores.
Local Open Scope Q_scope.

Lemma category_risk_scores_bounds :
  Forall (fun entry : string * (Q * Q) =>
            15 <= fst (snd entry) /\ fst (snd entry) < snd (snd entry) /\
            30 <= snd (snd entry) /\ snd (snd entry) <= 70)
         category_risk_scores.
Proof.
  repeat (constructor; [unfold Qle, Qlt; simpl; lia |]). constructor.
Qed.

Lemma risk_category_of_cases y :
  30 <= y ->
  (risk_category_of y = "Moderate" \/ risk_category_of y = "High" \/
   risk_category_of y = "Very High")%string.
Proof.
  intros H. unfold risk_category_of.
  destruct (Qlt_le_dec y 30) as [L|_]; [lra |].
  destruct (Qlt_le_dec y 50); [by left |].
  destruct (Qlt_le_dec y 70); [right; by left | right; by right].
Qed.

Lemma category_factors_four :
  Forall (fun entry : string * list string => length (snd entry) = 4%nat)
         category_risk_factors /\
  Forall (fun entry : string * list string => length (snd entry) = 4%nat)
         category_protective_factors.
Proof. split; repeat (constructor; [reflexivity |]); constructor. Qed.

Lemma take_five_of_four {A} (s generic : list A) g rest :
  length s = 4%nat -> generic = g :: rest ->
  take (Nat.min 5 (length (s ++ generic))) (s ++ generic) = s ++ [g].
Proof.
  intros Hs ->. do 5 (destruct s as [|? s]; try done).
Qed.

Local Close Scope Q_scope.

Lemma calculate_ai_risk_bounds (job_title job_category : string) :
  let r := calculate_ai_risk job_title job_category in
  (15 <= year_1_risk r)%Q /\ (year_1_risk r < year_5_risk r)%Q /\
  (30 <= year_5_risk r)%Q /\ (year_5_risk r <= 70)%Q /\
  risk_category r = risk_category_of (year_5_risk r) /\
  (risk_category r = "Moderate" \/ risk_category r = "High" \/
   risk_category r = "Very High").
Proof.
  intros r.
  assert ((15 <= year_1_risk r)%Q /\ (year_1_risk r < year_5_risk r)%Q /\
          (30 <= year_5_risk r)%Q /\ (year_5_risk r <= 70)%Q) as B.
  { subst r. unfold calculate_ai_risk.
    destruct (dict_get category_risk_scores job_category) as [[y1 y5]|] eqn:E.
    - apply dict_get_In in E.
      exact (proj1 (List.Forall_forall _ _) category_risk_scores_bounds _ E).
    - simpl. unfold Qle, Qlt. simpl. lia. }
  destruct B as (B1 & B2 & B3 & B4).
  repeat (split; [done |]).
  split; [apply calculate_ai_risk_category |].
  subst r. rewrite calculate_ai_risk_category.
  by apply risk_category_of_cases.
Qed.

End Scores.

(** X17. Whatever the title and the category, [calculate_ai_risk] gives a
    1-year risk of at least 15 that is below the 5-year risk, a 5-year risk
    from 30 to 70, and the tier of that 5-year risk, which is never
    ["Low"]. *)
Theorem calculate_ai_risk_range (job_title job_category : string) :
  let r := calculate_ai_risk job_title job_category in
  (15 <= year_1_risk r)%Q /\ (year_1_risk r < year_5_risk r)%Q /\
  (30 <= year_5_risk r)%Q /\ (year_5_risk r <= 70)%Q /\
  risk_category r = risk_category_of (year_5_risk r) /\
  (risk_category r = "Moderate" \/ risk_category r = "High" \/
   risk_category r = "Very High").
Proof. apply calculate_ai_risk_bounds. Qed.

(** X18. The factor lists do not depend on the title.  For a category with
    factors of its own they are its four factors followed by the first
    generic one; for every other category they are the four generic
    ones. *)
Theorem generated_factors (job_title job_category : string) :
  generate_risk_factors job_title job_category
  = match dict_get category_risk_factors job_category with
    | Some specific =>
        specific ++ ["Routine data processing tasks can be automated"]
    | None => generic_risk_factors
    end /\
  generate_protective_factors job_title job_category
  = match dict_get category_protective_factors job_category with
    | Some specific =>
        specific ++ ["Complex decision-making in ambiguous situations"]
    | None => generic_protective_factors
    end /\
  (4 <= length (generate_risk_factors job_title job_category) <= 5)%nat /\
  (4 <= length (generate_protective_factors job_title job_category) <= 5)%nat.
Proof.
  destruct category_factors_four as [R P].
  assert (generate_risk_factors job_title job_category
          = match dict_get category_risk_factors job_category with
            | Some specific =>
                specific ++ ["Routine data processing tasks can be automated"]
            | None => generic_risk_factors
            end) as E1.
  { unfold generate_risk_factors.
    destruct (dict_get category_risk_factors job_category) as [s|] eqn:E;
      [| reflexivity].
    apply dict_get_In in E.
    apply (take_five_of_four s generic_risk_factors _ _
             (proj1 (List.Forall_forall _ _) R _ E) eq_refl). }
  assert (generate_protective_factors job_title job_category
          = match dict_get category_protective_factors job_category with
            | Some specific =>
                specific ++ ["Complex decision-making in ambiguous situations"]
            | None => generic_protective_factors
            end) as E2.
  { unfold generate_protective_factors.
    destruct (dict_get category_protective_factors job_category) as [s|] eqn:E;
      [| reflexivity].
    apply dict_get_In in E.
    apply (take_five_of_four s generic_protective_factors _ _
             (proj1 (List.Forall_forall _ _) P _ E) eq_refl). }
  split; [exact E1 |]. split; [exact E2 |].
  rewrite E1, E2.
  destruct (dict_get category_risk_factors job_category) as [s|] eqn:Es;
    destruct (dict_get category_protective_factors job_category) as [p|] eqn:Ep;
    try (apply dict_get_In in Es;
         pose proof (proj1 (List.Forall_forall _ _) R _ Es) as Hs; simpl in Hs);
    try (apply dict_get_In in Ep;
         pose proof (proj1 (List.Forall_forall _ _) P _ Ep) as Hp; simpl in Hp);
    rewrite ?length_app, ?Hs, ?Hp; simpl; lia.
Qed.

(** X19. The scorer of the database-only module gives three risk factors
    and three protective factors, a 1-year risk below the 5-year risk, and
    only the labels ["Low"] and ["Moderate"].  Its label is the tier that
    [calculate_ai_risk] gives to the same 5-year risk except for the
    education profile (30, labelled ["Low"]) and the management profile (50,
    labelled ["Moderate"]), which sit on a threshold. *)
Theorem calculate_ai_risk_from_category_labels
  (job_category0 occupation_code0 : string) :
  let r := calculate_ai_risk_from_category job_category0 occupation_code0 in
  length (cat_risk_factors r) = 3%nat /\
  length (cat_protective_factors r) = 3%nat /\
  (cat_year_1_risk r < cat_year_5_risk r)%Q /\
  (cat_risk_category r = "Low" \/ cat_risk_category r = "Moderate") /\
  (cat_risk_category r = risk_category_of (cat_year_5_risk r) \/
   (cat_year_5_risk r = 30%Q /\ cat_risk_category r = "Low" /\
    risk_category_of (cat_year_5_risk r) = "Moderate") \/
   (cat_year_5_risk r = 50%Q /\ cat_risk_category r = "Moderate" /\
    risk_category_of (cat_year_5_risk r) = "High")).
Proof.
  intros r. subst r. unfold calculate_ai_risk_from_category.
  destruct (_ || _).
  { repeat (split; [reflexivity |]). split; [by right | by left]. }
  destruct (_ || _).
  { repeat (split; [reflexivity |]). split; [by left | by left]. }
  destruct (_ || _).
  { repeat (split; [reflexivity |]). split; [by left | right; by left]. }
  destruct (_ || _).
  { repeat (split; [reflexivity |]). split; [by right | right; by right]. }
  repeat (split; [reflexivity |]). split; [by right | by left].
Qed.

(** ** Store *)

Section Upsert.













End Upsert.



(** ** Pipeline *)

Section PipelineFacts.



Lemma get_bls_data_from_db_eq code w :
  get_bls_data_from_db code w = (fst (get_bls_data_from_db code w), w).
Proof.
  pose proof (get_bls_data_from_db_world code w).
  destruct (get_bls_data_from_db code w). simpl in *. by subst.
Qed.



End PipelineFacts.



Section Failures.

Lemma find_occupation_code_only_table job_title0 w :
  let w1 := snd (find_occupation_code job_title0 w) in
  BLS_API_KEY w1 = BLS_API_KEY w /\ _api_cache w1 = _api_cache w /\
  upstream w1 = upstream w /\ posted w1 = posted w /\
  engine w1 = engine w /\ now w1 = now w.
Proof.
  intros w1. subst w1.
  destruct (find_occupation_code_table job_title0 w) as [[-> | (k & c & -> & _)] _];
    done.
Qed.

(** A reply that is not a dictionary makes the parse raise, and it is in
    the cache afterwards. *)
Lemma get_occupation_data_malformed w api_key code sid data :
  dict_get series_mapping code = Some sid ->
  api_key_of w = Some api_key ->
  (_api_cache w !! cache_key [sid] (pretty (current_year w - 5)%Z)
                             (pretty (current_year w)) = Some data \/
   (_api_cache w !! cache_key [sid] (pretty (current_year w - 5)%Z)
                              (pretty (current_year w)) = None /\
    upstream w (length (posted w))
             (mkRequest [sid] (pretty (current_year w - 5)%Z)
                        (pretty (current_year w)) api_key)
    = Response data)) ->
  as_dict data = Raise AttributeError ->
  fst (get_occupation_data code w) = Raise AttributeError /\
  _api_cache (snd (get_occupation_data code w))
    !! cache_key [sid] (pretty (current_year w - 5)%Z) (pretty (current_year w))
  = Some data.
Proof.
  intros M K H A. unfold get_occupation_data, get_bls_data. rewrite M, K.
  destruct H as [C | [C U]]; rewrite C; [| rewrite U]; simpl.
  - unfold parse_occupation_response. by rewrite A.
  - unfold parse_occupation_response. rewrite A. simpl.
    by rewrite lookup_insert_eq.
Qed.

Lemma fetch_bls_data_raises job_title0 w code title cat w1 e :
  find_occupation_code job_title0 w = ((code, title, cat), w1) ->
  fst (get_bls_data_from_db code w1) = None ->
  fst (get_occupation_data code w1) = Raise e ->
  fst (fetch_bls_data job_title0 w) = Raise e.
Proof.
  intros F D O. unfold fetch_bls_data. rewrite F.
  rewrite (get_bls_data_from_db_eq code w1), D.
  destruct (get_occupation_data code w1) as [[occ|e'] w3]; simpl in O; [done |].
  by injection O as ->.
Qed.

Lemma sample_response_rejected series_id occ_code :
  parse_occupation_response (sample_response series_id) occ_code
  = Ok (OccupationError (Formatted "BLS API request failed: " (JList []))).
Proof. reflexivity. Qed.

Lemma get_occupation_data_offline occ_code w :
  api_key_of w = None ->
  exists message,
    get_occupation_data occ_code w = (Ok (OccupationError message), w).
Proof.
  intros K. unfold get_occupation_data, get_bls_data. rewrite K.
  destruct (dict_get series_mapping occ_code) as [sid|]; [| by eexists].
  simpl. rewrite sample_response_rejected. by eexists.
Qed.

Lemma fetch_bls_data_offline job_title0 w :
  api_key_of w = None ->
  exists data w',
    fetch_bls_data job_title0 w = (Ok data, w') /\
    (engine w = None -> median_wage data = None).
Proof.
  intros K. unfold fetch_bls_data.
  destruct (find_occupation_code_only_table job_title0 w)
    as (K1 & _ & _ & _ & E1 & _).
  destruct (find_occupation_code job_title0 w) as [[[code std] cat] w1].
  simpl in K1, E1.
  rewrite (get_bls_data_from_db_eq code w1).
  destruct (fst (get_bls_data_from_db code w1)) as [row|] eqn:D.
  - eexists _, _. split; [reflexivity |]. intros E.
    unfold get_bls_data_from_db in D. by rewrite E1, E in D.
  - destruct (get_occupation_data_offline code w1) as [m ->].
    { unfold api_key_of in *. by rewrite K1. }
    match goal with
    | |- context [save_bls_data_to_db ?d w1] =>
        destruct (save_bls_data_to_db d w1) as [ok w4]
    end.
    eexists _, _. split; [reflexivity | done].
Qed.

End Failures.

(** X15. A reply that is not a JSON object (fresh or cached) is not turned
    into an error result: for a title whose code has a series and whose
    record is not in the store, [get_occupation_data], [fetch_bls_data] and
    [get_complete_job_data] all raise [AttributeError].  The reply stays in
    the cache. *)
Theorem malformed_reply_raises
  (job_title0 : string) (w w1 : World) (api_key code title0 category sid : string)
  (data : json) :
  find_occupation_code job_title0 w = ((code, title0, category), w1) ->
  fst (get_bls_data_from_db code w1) = None ->
  dict_get series_mapping code = Some sid ->
  api_key_of w = Some api_key ->
  (_api_cache w !! cache_key [sid] (pretty (current_year w - 5)%Z)
                             (pretty (current_year w)) = Some data \/
   (_api_cache w !! cache_key [sid] (pretty (current_year w - 5)%Z)
                              (pretty (current_year w)) = None /\
    upstream w (length (posted w))
             (mkRequest [sid] (pretty (current_year w - 5)%Z)
                        (pretty (current_year w)) api_key)
    = Response data)) ->
  as_dict data = Raise AttributeError ->
  fst (get_occupation_data code w) = Raise AttributeError /\
  _api_cache (snd (get_occupation_data code w))
    !! cache_key [sid] (pretty (current_year w - 5)%Z) (pretty (current_year w))
  = Some data /\
  fst (fetch_bls_data job_title0 w) = Raise AttributeError /\
  fst (get_complete_job_data job_title0 w) = Raise AttributeError.
Proof.
  intros F D M K H A.
  destruct (get_occupation_data_malformed w api_key code sid data M K H A)
    as [O C].
  split; [exact O |]. split; [exact C |].
  destruct (find_occupation_code_only_table job_title0 w)
    as (K1 & C1 & U1 & P1 & E1 & N1).
  rewrite F in K1, C1, U1, P1, E1, N1. simpl in K1, C1, U1, P1, E1, N1.
  assert (fst (get_occupation_data code w1) = Raise AttributeError) as O1.
  { apply (get_occupation_data_malformed w1 api_key code sid data M).
    - unfold api_key_of in *. by rewrite K1.
    - unfold current_year, today. by rewrite N1, C1, U1, P1.
    - exact A. }
  split.
  - by apply fetch_bls_data_raises with code title0 category w1.
  - unfold get_complete_job_data. rewrite F.
    pose proof (fetch_bls_data_raises job_title0 w1 code job_title0 category w1
                  AttributeError
                  (find_occupation_code_twice _ _ _ _ _ _ F) D O1) as R.
    destruct (fetch_bls_data job_title0 w1) as [[d|e] w2]; simpl in R; [done |].
    by injection R as ->.
Qed.

Lemma malformed_reply_raises_witness :
  fst (get_complete_job_data "software developer"
         (connected_world (Response (JList [])))) = Raise AttributeError.
Proof.
  apply (malformed_reply_raises "software developer"
           (connected_world (Response (JList [])))
           (connected_world (Response (JList [])))
           "key" "15-1252" "software developer" "Computer and Mathematical"
           "OEU1025560000000015125201" (JList [])).
  - reflexivity.
  - reflexivity.
  - reflexivity.
  - reflexivity.
  - right. split; reflexivity.
  - reflexivity.
Defined.

(** X22. Without a credential the pipeline never raises: for every title
    [get_complete_job_data] returns a result, and with no store either that
    result has no median wage. *)
Theorem offline_pipeline_returns (job_title0 : string) (w : World) :
  api_key_of w = None ->
  exists r w',
    get_complete_job_data job_title0 w = (Ok r, w') /\
    (engine w = None -> result_median_wage r = None).
Proof.
  intros K. unfold get_complete_job_data.
  destruct (find_occupation_code_only_table job_title0 w)
    as (K1 & _ & _ & _ & E1 & _).
  destruct (find_occupation_code job_title0 w) as [[[code std] cat] w1].
  simpl in K1, E1.
  destruct (fetch_bls_data_offline job_title0 w1) as (data & w2 & -> & Hm).
  { unfold api_key_of in *. by rewrite K1. }
  eexists _, _. split; [reflexivity |]. simpl. intros E. apply Hm. congruence.
Qed.

Lemma offline_pipeline_returns_witness :
  exists r w',
    get_complete_job_data "software developer" offline_world = (Ok r, w') /\
    result_median_wage r = None.
Proof.
  destruct (offline_pipeline_returns "software developer" offline_world eq_refl)
    as (r & w' & H & M).
  exists r, w'. split; [exact H | exact (M eq_refl)].
Defined.

(** X23. What [get_complete_job_data] returns is consistent: the code is
    the one the resolver gives, the category is the resolver's unless that
    is ["General"], the risk tier is the tier of the 5-year risk and never
    ["Low"], and the 1-year risk is below the 5-year risk. *)
Theorem get_complete_job_data_consistent
  (job_title0 : string) (w w' : World) (r : CompleteJobData) :
  get_complete_job_data job_title0 w = (Ok r, w') ->
  result_occupation_code r
  = fst (fst (fst (find_occupation_code job_title0 w))) /\
  (snd (fst (find_occupation_code job_title0 w)) <> "General" ->
   result_job_category r = snd (fst (find_occupation_code job_title0 w))) /\
  result_risk_category r = risk_category_of (result_year_5_risk r) /\
  result_risk_category r <> "Low" /\
  (result_year_1_risk r < result_year_5_risk r)%Q.
Proof.
  unfold get_complete_job_data.
  destruct (find_occupation_code job_title0 w) as [[[code std] cat] w1].
  destruct (fetch_bls_data job_title0 w1) as [[data|e] w2]; [| done].
  intros [= <- <-]. simpl.
  split; [done |]. split.
  - intros H. destruct (String.eqb cat "General") eqn:E; [| done].
    by apply String.eqb_eq in E.
  - match goal with
    | |- context [calculate_ai_risk job_title0 ?c] =>
        destruct (calculate_ai_risk_bounds job_title0 c)
          as (_ & B2 & _ & _ & B5 & B6)
    end.
    split; [exact B5 |]. split; [| exact B2].
    destruct B6 as [-> | [-> | ->]]; discriminate.
Qed.

Lemma get_complete_job_data_consistent_witness :
  exists r,
    get_complete_job_data "software developer" offline_world
    = (Ok r, offline_world) /\
    result_occupation_code r = "15-1252" /\
    result_risk_category r = "High".
Proof.
  eexists. split; [reflexivity |].
  split.
  - apply (get_complete_job_data_consistent "software developer" offline_world
             offline_world). reflexivity.
  - reflexivity.
Defined.



(** ** Employment trend *)

Section Trend.
Import Float64.
Local Open Scope Q_scope.

Lemma element_zero current annual_change :
  (Z.abs current < 2 ^ 53)%Z -> element current annual_change 0 = current.
Proof.
  intros B. unfold element.
  rewrite <- (to_int_Z current) at 2. apply to_int_comp.
  assert (round (annual_change * round (inject_Z 0)) == 0) as E1.
  { apply round_zero. rewrite (round_Z 0) by done. apply Qmult_0_r. }
  assert (round (inject_Z current) + round (annual_change * round (inject_Z 0))
          == inject_Z current) as E2.
  { rewrite E1, (round_Z current B). apply Qplus_0_r. }
  rewrite (round_comp _ _ E2). by apply round_Z.
Qed.

Lemma trend_value_anti current projected num_years i j :
  (projected < current)%Z -> (1 < num_years)%Z -> (i <= j)%Z ->
  (trend_value current projected num_years j
   <= trend_value current projected num_years i)%Z.
Proof.
  intros Hcp Hn Hij. unfold trend_value, element.
  apply to_int_mono, round_mono.
  assert (round (inject_Z (projected - current) / inject_Z (num_years - 1)) <= 0)
    as Ha.
  { apply round_nonpos. apply Qle_shift_div_r.
    - change 0 with (inject_Z 0). rewrite <- Zlt_Qlt. lia.
    - rewrite Qmult_0_l. change 0 with (inject_Z 0). rewrite <- Zle_Qle. lia. }
  assert (round (inject_Z i) <= round (inject_Z j)) as Hr.
  { apply round_mono. rewrite <- Zle_Qle. exact Hij. }
  apply Qplus_le_r. apply round_mono.
  set (a := round (_ / _)) in *. set (x := round (inject_Z i)) in *.
  set (y := round (inject_Z j)) in *. nra.
Qed.

Lemma generate_employment_trend_cases current projected num_years trend :
  generate_employment_trend (Some current) projected num_years = Ok trend ->
  trend = (if (current =? 0)%Z then [] else [current]) \/
  (exists p, projected = Some p /\ current <> 0%Z /\ p <> 0%Z /\
             (1 < num_years)%Z /\
             trend = trend_value current p num_years <$> range num_years).
Proof.
  destruct projected as [p|]; [| intros [= <-]; by left].
  destruct (Z.eq_dec current 0%Z) as [Hc | Hc];
    [| destruct (Z.eq_dec p 0%Z) as [Hp | Hp];
       [| destruct (Z_le_gt_dec num_years 1) as [Hn | Hn]]].
  1-3: rewrite generate_employment_trend_short by lia; intros [= <-]; by left.
  intros G. right. exists p.
  apply generate_employment_trend_inv in G; [| lia ..].
  repeat (split; [done || lia |]). exact G.
Qed.

End Trend.

(** X24. A trend that is returned for a current figure other than zero and
    below 2^53 in magnitude starts at the current figure, exactly, whatever
    the rounding of the later elements. *)
Theorem employment_trend_starts_at_current
  (current : Z) (projected : option Z) (num_years : Z) (trend : list Z) :
  current <> 0%Z -> (Z.abs current < 2 ^ 53)%Z ->
  generate_employment_trend (Some current) projected num_years = Ok trend ->
  trend !! 0%nat = Some current.
Proof.
  intros Hc B G.
  apply generate_employment_trend_cases in G
    as [-> | (p & -> & _ & Hp & Hn & ->)].
  - apply Z.eqb_neq in Hc. by rewrite Hc.
  - rewrite trend_lookup. case_decide; [| lia].
    f_equal. unfold trend_value. by apply element_zero.
Qed.

Lemma employment_trend_starts_at_current_witness :
  generate_employment_trend (Some 1%Z) (Some 4%Z) 4 = Ok [1; 2; 3; 4]%Z /\
  [1; 2; 3; 4]%Z !! 0%nat = Some 1%Z.
Proof.
  split; [vm_compute; reflexivity |].
  apply (employment_trend_starts_at_current 1 (Some 4%Z) 4 [1; 2; 3; 4]%Z);
    [discriminate | reflexivity | vm_compute; reflexivity].
Defined.

(** X25. A returned trend never rises when the projected figure is below
    the current one. *)
Theorem employment_trend_declines
  (current projected num_years : Z) (trend : list Z) (i j : nat) (vi vj : Z) :
  (projected < current)%Z -> (i <= j)%nat ->
  generate_employment_trend (Some current) (Some projected) num_years = Ok trend ->
  trend !! i = Some vi -> trend !! j = Some vj -> (vj <= vi)%Z.
Proof.
  intros Hcp Hij G.
  apply generate_employment_trend_cases in G
    as [-> | (p & [= <-] & _ & Hp & Hn & ->)].
  - destruct (current =? 0)%Z; [done |].
    destruct i, j; simpl; intros; simplify_eq; lia.
  - rewrite !trend_lookup.
    repeat case_decide; try done. intros [= <-] [= <-].
    apply trend_value_anti; lia.
Qed.

Lemma employment_trend_declines_witness :
  generate_employment_trend (Some 149900%Z) (Some 112400%Z) 11
  = Ok [149900; 146150; 142400; 138650; 134900; 131150; 127400; 123650;
        119900; 116150; 112400]%Z /\
  (112400 <= 149900)%Z.
Proof.
  split; [vm_compute; reflexivity |].
  apply (employment_trend_declines 149900 112400 11
           [149900; 146150; 142400; 138650; 134900; 131150; 127400; 123650;
            119900; 116150; 112400]%Z 0 10 149900 112400).
  - reflexivity.
  - apply Nat.leb_le. reflexivity.
  - vm_compute. reflexivity.
  - reflexivity.
  - reflexivity.
Defined.

(** X26. For a row whose titles and category are strings and whose
    figures are up to 2^62 in magnitude [format_database_job_data] does not
    fail; the years of its trend are 2022 to 2032, and the employment trend
    has one element for each of them when both figures are present and not
    zero, and none otherwise. *)
Theorem format_database_job_data_trend
  (row : BlsData) (original_job_title : string) :
  (forall c, current_employment row = Some c -> (Z.abs c <= 2 ^ 62)%Z) ->
  (forall p, projected_employment row = Some p -> (Z.abs p <= 2 ^ 62)%Z) ->
  exists data,
    format_database_job_data row original_job_title = Ok data /\
    data_trend_years data
    = [2022; 2023; 2024; 2025; 2026; 2027; 2028; 2029; 2030; 2031; 2032]%Z /\
    length (data_trend_employment data)
    = (if truthy (current_employment row) && truthy (projected_employment row)
       then 11 else 0)%nat.
Proof.
  intros Bc Bp. unfold format_database_job_data, trend_employment.
  destruct (truthy (current_employment row) && truthy (projected_employment row))
    eqn:T.
  - apply andb_true_iff in T as [Tc Tp].
    destruct (current_employment row) as [c|]; [| done].
    destruct (projected_employment row) as [p|]; [| done].
    simpl in Tc, Tp. apply negb_true_iff, Z.eqb_neq in Tc, Tp.
    rewrite (generate_employment_trend_Ok c p) by
      (try done; try (by apply Bc); try (by apply Bp)).
    simpl. eexists. split; [reflexivity |]. split; [reflexivity |].
    reflexivity.
  - simpl. eexists. split; [reflexivity |]. by split.
Qed.

Lemma format_database_job_data_trend_witness :
  exists data,
    format_database_job_data
      (mkBlsData (Some 1%Z) "43-9021" "Data Entry Keyers" "data entry keyers"
                 "Office and Administrative Support" (Some 149900%Z)
                 (Some 112400%Z) (Some (-25)%Q) (Some 14200%Z) None 0)
      "data entry" = Ok data /\
    length (data_trend_employment data) = 11%nat.
Proof.
  destruct (format_database_job_data_trend
              (mkBlsData (Some 1%Z) "43-9021" "Data Entry Keyers"
                         "data entry keyers"
                         "Office and Administrative Support" (Some 149900%Z)
                         (Some 112400%Z) (Some (-25)%Q) (Some 14200%Z) None 0)
              "data entry")
    as (data & H1 & _ & H2).
  - intros c [= <-]. vm_compute. discriminate.
  - intros p [= <-]. vm_compute. discriminate.
  - exists data. split; [exact H1 | exact H2].
Defined.

(** ** Suggestions *)

Section Suggestions.

Lemma job_eqb_refl job : job_eqb job job = true.
Proof.
  unfold job_eqb. rewrite !String.eqb_refl. by destruct (is_primary job).
Qed.

Lemma job_eqb_title a b : job_eqb a b = true -> title a = title b.
Proof.
  unfold job_eqb. intros H.
  apply andb_true_iff in H as [H _]. apply andb_true_iff in H as [H _].
  by apply String.eqb_eq.
Qed.

(** [job in [j for j in l if P(j)]] is [P(job)] for a [job] of [l], when
    [P] looks at the title only. *)
Lemma job_in_filter (P : JobTitle -> bool) l job :
  (forall a b, In a l -> In b l -> title a = title b -> P a = P b) ->
  In job l ->
  job_in job (List.filter P l) = P job.
Proof.
  intros HP Hin. unfold job_in.
  destruct (P job) eqn:E.
  - apply existsb_exists. exists job. split; [| apply job_eqb_refl].
    by apply filter_In.
  - apply not_true_is_false. intros H.
    apply existsb_exists in H as (j' & Hj' & Heq).
    apply filter_In in Hj' as [Hj' Pj'].
    apply job_eqb_title in Heq.
    rewrite (HP job j' Hin Hj' Heq) in E. congruence.
Qed.

Lemma startswith_contains s p : startswith s p = true -> contains p s = true.
Proof. apply contains_chars_startswith. Qed.

Lemma startswith_refl s : startswith s s = true.
Proof.
  unfold startswith. apply startswith_chars_spec. exists []. by rewrite app_nil_r.
Qed.

Lemma filter_split {A} (P Q : A -> bool) l :
  (forall x, P x = true -> Q x = true) ->
  List.filter P l ++ List.filter (fun x => Q x && negb (P x)) l
  ≡ₚ List.filter Q l.
Proof.
  intros H. induction l as [|x l IH]; simpl; [done |].
  destruct (P x) eqn:EP.
  - rewrite (H x EP). simpl. by rewrite IH.
  - rewrite andb_true_r. destruct (Q x); simpl; [| exact IH].
    rewrite <- IH. symmetry. apply Permutation_middle.
Qed.

Lemma In_slice_to {A} (l : list A) limit x : In x (slice_to l limit) -> In x l.
Proof.
  unfold slice_to. destruct (0 <=? limit)%Z; intros H;
    [rewrite <- (take_drop (Z.to_nat limit) l)
    | rewrite <- (take_drop (length l - Z.to_nat (- limit)) l)];
    apply in_or_app; by left.
Qed.

Lemma slice_to_all {A} (l : list A) limit :
  (Z.of_nat (length l) <= limit)%Z -> slice_to l limit = l.
Proof.
  intros H. unfold slice_to.
  destruct (0 <=? limit)%Z eqn:E; [| apply Z.leb_gt in E; lia].
  apply take_ge. lia.
Qed.

(** The three groups of [search_job_titles], with the membership tests
    replaced by what they test. *)
Lemma search_job_titles_groups job_titles query limit :
  query <> "" ->
  search_job_titles job_titles query limit
  = slice_to
      (List.filter (fun job => String.eqb (lower (title job)) (lower query))
                   job_titles
       ++ List.filter (fun job => startswith (lower (title job)) (lower query)
                                  && negb (String.eqb (lower (title job))
                                                      (lower query)))
                      job_titles
       ++ List.filter (fun job => contains (lower query) (lower (title job))
                                  && negb (startswith (lower (title job))
                                                      (lower query)))
                      job_titles)
      limit.
Proof.
  intros Hq. unfold search_job_titles.
  apply String.eqb_neq in Hq. rewrite Hq.
  set (ql := lower query).
  set (exact := List.filter (fun job => String.eqb (lower (title job)) ql)
                            job_titles).
  assert (forall job, In job job_titles ->
            job_in job exact = String.eqb (lower (title job)) ql) as He.
  { intros job Hin. apply job_in_filter; [| exact Hin].
    by intros a b _ _ ->. }
  assert (List.filter (fun job => startswith (lower (title job)) ql
                                  && negb (job_in job exact)) job_titles
          = List.filter (fun job => startswith (lower (title job)) ql
                                    && negb (String.eqb (lower (title job)) ql))
                        job_titles) as Es.
  { apply filter_ext_in. intros job Hin. by rewrite He. }
  rewrite Es.
  set (starts := List.filter
                   (fun job => startswith (lower (title job)) ql
                               && negb (String.eqb (lower (title job)) ql))
                   job_titles).
  assert (forall job, In job job_titles ->
            job_in job starts
            = startswith (lower (title job)) ql
              && negb (String.eqb (lower (title job)) ql)) as Hs.
  { intros job Hin. apply job_in_filter; [| exact Hin].
    by intros a b _ _ ->. }
  do 2 f_equal. f_equal.
  apply filter_ext_in. intros job Hin. rewrite He, Hs by exact Hin.
  destruct (String.eqb (lower (title job)) ql) eqn:E1; simpl.
  - apply String.eqb_eq in E1. rewrite E1, startswith_refl.
    simpl. by rewrite !andb_false_r.
  - by rewrite !andb_true_r.
Qed.

End Suggestions.

(** X27. Every suggestion is one of the known titles and matches the
    query: it is a primary title when the query is empty, and otherwise its
    title contains the query, without regard to case.  With a limit that is
    not negative there are at most that many suggestions. *)
Theorem search_job_titles_sound
  (job_titles : list JobTitle) (query : string) (limit : Z) :
  (forall job,
      In job (search_job_titles job_titles query limit) ->
      In job job_titles /\
      if String.eqb query "" then is_primary job = true
      else contains (lower query) (lower (title job)) = true) /\
  ((0 <= limit)%Z ->
   (length (search_job_titles job_titles query limit) <= Z.to_nat limit)%nat).
Proof.
  split.
  - intros job.
    destruct (String.eqb query "") eqn:Q.
    + unfold search_job_titles. rewrite Q. intros H.
      apply In_slice_to, filter_In in H. exact H.
    + apply String.eqb_neq in Q.
      rewrite (search_job_titles_groups _ _ _ Q). intros H.
      apply In_slice_to in H.
      rewrite !in_app_iff, !filter_In in H.
      destruct H as [[Hin H] | [[Hin H] | [Hin H]]]; (split; [exact Hin |]).
      * apply String.eqb_eq in H. rewrite H.
        apply startswith_contains, startswith_refl.
      * apply andb_true_iff in H as [H _]. by apply startswith_contains.
      * by apply andb_true_iff in H as [H _].
  - intros H. unfold search_job_titles, slice_to.
    apply Z.leb_le in H. rewrite H.
    destruct (String.eqb query ""); rewrite length_take; lia.
Qed.

Lemma search_job_titles_sound_witness :
  In (mkJobTitle "Nurse" "29-1141" false) load_fallback_job_titles /\
  contains (lower "NURSE") (lower "Nurse") = true.
Proof.
  apply (proj1 (search_job_titles_sound load_fallback_job_titles "NURSE" 10)
               (mkJobTitle "Nurse" "29-1141" false)).
  vm_compute. by left.
Defined.

(** X28. For a query that is not empty the suggestions are, in this order:
    the titles equal to the query, the other titles that start with it, and
    the other titles that contain it, each group in the order of the known
    titles and all without regard to case, cut at the limit.  So with a
    limit of at least the number of known titles, every title that contains
    the query is suggested exactly as often as it is known. *)
Theorem search_job_titles_ranking
  (job_titles : list JobTitle) (query : string) (limit : Z) :
  query <> "" ->
  search_job_titles job_titles query limit
  = slice_to
      (List.filter (fun job => String.eqb (lower (title job)) (lower query))
                   job_titles
       ++ List.filter (fun job => startswith (lower (title job)) (lower query)
                                  && negb (String.eqb (lower (title job))
                                                      (lower query)))
                      job_titles
       ++ List.filter (fun job => contains (lower query) (lower (title job))
                                  && negb (startswith (lower (title job))
                                                      (lower query)))
                      job_titles)
      limit /\
  ((Z.of_nat (length job_titles) <= limit)%Z ->
   search_job_titles job_titles query limit
   ≡ₚ List.filter (fun job => contains (lower query) (lower (title job)))
                  job_titles).
Proof.
  intros Hq. split; [by apply search_job_titles_groups |].
  intros Hl. rewrite (search_job_titles_groups _ _ _ Hq).
  rewrite slice_to_all.
  - rewrite app_assoc.
    rewrite (filter_split
               (fun job => String.eqb (lower (title job)) (lower query))
               (fun job => startswith (lower (title job)) (lower query))).
    + apply (filter_split
               (fun job => startswith (lower (title job)) (lower query))
               (fun job => contains (lower query) (lower (title job)))).
      intros job. apply startswith_contains.
    + intros job H. apply String.eqb_eq in H. rewrite H. apply startswith_refl.
  - rewrite !length_app.
    pose proof (filter_split
                  (fun job => String.eqb (lower (title job)) (lower query))
                  (fun job => startswith (lower (title job)) (lower query))
                  job_titles) as P1.
    pose proof (filter_split
                  (fun job => startswith (lower (title job)) (lower query))
                  (fun job => contains (lower query) (lower (title job)))
                  job_titles) as P2.
    apply Permutation_length in P1, P2.
    + rewrite length_app in P1, P2.
      pose proof (filter_length_le
                    (fun job => contains (lower query) (lower (title job)))
                    job_titles).
      lia.
    + intros job. apply startswith_contains.
    + intros job H. apply String.eqb_eq in H. rewrite H. apply startswith_refl.
Qed.

Lemma search_job_titles_ranking_witness :
  search_job_titles load_fallback_job_titles "nurse" 17
  = [mkJobTitle "Nurse" "29-1141" false;
     mkJobTitle "Registered Nurse" "29-1141" true].
Proof.
  rewrite (proj1 (search_job_titles_ranking load_fallback_job_titles "nurse" 17
                    ltac:(discriminate))).
  reflexivity.
Defined.
